(** * Poetry service: ingestion pipeline and semantic retrieval

    A shallow embedding of [poetry_service/scripts/import_data.py]
    (class [PoetryImporter]) and of the semantic search endpoint of
    [poetry_service/fastapi_app/main.py].

    Conventions.
    - A Python [str] is a list of Unicode code points ([list N]); [len],
      slicing and [in] then count characters as Python does.
    - A parsed JSON document is a value of [json]; Python's [None] is [JNull]
      and a [dict] is an association list in insertion order.
    - Code that can raise lives in the [result] monad; a [try/except] is a
      [match] on the result.
    - What lies outside the repository (the OpenCC converter, [str()] of a
      value that is not a string, [str.lower], the Unicode digit class, the
      HTTP embedding service, database faults, thread scheduling, pgvector's
      distance operator) is a Section variable or an explicit oracle. *)

From Stdlib Require Import String Ascii.
From Stdlib Require Import ZArith NArith QArith Qround Qminmax Lia Permutation Sorted.
From stdpp Require Import base list sorting.

#[local] Set Warnings "-register-all".

Local Open Scope N_scope.
Local Open Scope list_scope.

Abbreviation str := (list N).

(** ** Python strings *)

Module Py.

Fixpoint bytes_of (s : string) : list N :=
  match s with
  | EmptyString => []
  | String a r => N_of_ascii a :: bytes_of r
  end.

(** UTF-8 decoding of a literal of this file into code points. *)
Fixpoint utf8_go (acc : N) (need : nat) (bs : list N) : str :=
  match bs with
  | [] => []
  | b :: bs' =>
      match need with
      | O =>
          if b <? 128 then b :: utf8_go 0 0 bs'
          else if b <? 224 then utf8_go (b - 192) 1 bs'
          else if b <? 240 then utf8_go (b - 224) 2 bs'
          else utf8_go (b - 240) 3 bs'
      | S k =>
          let acc' := acc * 64 + b mod 64 in
          match k with
          | O => acc' :: utf8_go 0 0 bs'
          | S _ => utf8_go acc' k bs'
          end
      end
  end.

Definition u (s : string) : str := utf8_go 0 0 (bytes_of s).

(** [str.isspace] of one character; the same class is [\s] of [re] and what
    [str.strip] removes. *)
Definition is_space (c : N) : bool :=
  ((9 <=? c) && (c <=? 13)) || ((28 <=? c) && (c <=? 32))
  || (c =? 133) || (c =? 160) || (c =? 5760)
  || ((8192 <=? c) && (c <=? 8202))
  || (c =? 8232) || (c =? 8233) || (c =? 8239) || (c =? 8287) || (c =? 12288).

Fixpoint lstrip (s : str) : str :=
  match s with
  | [] => []
  | c :: s' => if is_space c then lstrip s' else s
  end.

Definition rstrip (s : str) : str := rev (lstrip (rev s)).

(** [s.strip()] *)
Definition strip (s : str) : str := rstrip (lstrip s).

(** [s.isspace()]: at least one character, all of them whitespace. *)
Definition isspace (s : str) : bool :=
  match s with
  | [] => false
  | _ => forallb is_space s
  end.

(** truth value of a string: [bool(s)] *)
Definition nonempty {A} (l : list A) : bool :=
  match l with [] => false | _ => true end.

Fixpoint starts_with (p s : str) : bool :=
  match p, s with
  | [], _ => true
  | _ :: _, [] => false
  | a :: p', b :: s' => (a =? b) && starts_with p' s'
  end.

(** [sub in s] for two strings *)
Fixpoint contains (sub s : str) : bool :=
  starts_with sub s ||
  match s with
  | [] => false
  | _ :: s' => contains sub s'
  end.

Definition str_eqb (a b : str) : bool := bool_decide (a = b).

End Py.

Import Py.

(** ** Exceptions and results *)

Inductive exn :=
| KeyError | IndexError | TypeError | AttributeError | ValueError
| DatabaseError
| HTTPException (status_code : Z).

Inductive result (A : Type) :=
| Ok (a : A)
| Raise (e : exn).
Arguments Ok {A} a.
Arguments Raise {A} e.

Definition bind {A B} (m : result A) (k : A -> result B) : result B :=
  match m with
  | Ok a => k a
  | Raise e => Raise e
  end.

Notation "x <- m ;; k" := (bind m (fun x => k))
  (at level 90, m at next level, right associativity).

Definition returns {A} (m : result A) : Prop := exists a, m = Ok a.

(** ** JSON documents as [json.load] builds them *)

Inductive json :=
| JNull
| JBool (b : bool)
| JInt (n : Z)
| JFloat (q : Q)
| JStr (s : str)
| JList (l : list json)
| JDict (d : list (str * json)).

Abbreviation dict := (list (str * json)).

(** [bool(v)] *)
Definition truthy (v : json) : bool :=
  match v with
  | JNull => false
  | JBool b => b
  | JInt n => negb (n =? 0)%Z
  | JFloat q => negb (Qeq_bool q 0)
  | JStr s => nonempty s
  | JList l => nonempty l
  | JDict d => nonempty d
  end.

Definition is_list (v : json) : bool := match v with JList _ => true | _ => false end.
Definition is_dict (v : json) : bool := match v with JDict _ => true | _ => false end.
Definition is_str (v : json) : bool := match v with JStr _ => true | _ => false end.

Fixpoint lookup_key (d : dict) (k : str) : option json :=
  match d with
  | [] => None
  | (k', v) :: d' => if str_eqb k' k then Some v else lookup_key d' k
  end.

(** [k in d] *)
Definition has_key (d : dict) (k : str) : bool :=
  match lookup_key d k with Some _ => true | None => false end.

(** [d.get(k, default)]; [d.get(k)] is [get d k JNull]. *)
Definition get (d : dict) (k : str) (default : json) : json :=
  match lookup_key d k with Some v => v | None => default end.

(** [d[k]] *)
Definition getitem (d : dict) (k : str) : result json :=
  match lookup_key d k with Some v => Ok v | None => Raise KeyError end.

(** [v[0]] *)
Definition index0 (v : json) : result json :=
  match v with
  | JList (x :: _) => Ok x
  | JStr (c :: _) => Ok (JStr [c])
  | JList [] | JStr [] => Raise IndexError
  | JDict _ => Raise KeyError
  | _ => Raise TypeError
  end.

(** the items a [for x in v] visits *)
Definition iter (v : json) : result (list json) :=
  match v with
  | JList l => Ok l
  | JStr s => Ok (map (fun c => JStr [c]) s)
  | JDict d => Ok (map (fun kv => JStr (fst kv)) d)
  | _ => Raise TypeError
  end.

(** [a or b] *)
Definition py_or (a b : json) : json := if truthy a then a else b.

(** [k in d and isinstance(d[k], list)] *)
Definition list_at (d : dict) (k : str) : result bool :=
  if has_key d k then v <- getitem d k ;; Ok (is_list v) else Ok false.

(** [for x in l: poems = body x poems] *)
Fixpoint for_each {A S} (l : list A) (body : A -> S -> result S) (s : S) : result S :=
  match l with
  | [] => Ok s
  | x :: l' => s' <- body x s ;; for_each l' body s'
  end.

Example utf8_sample : u "一句。" = [19968; 21477; 12290].
Proof. reflexivity. Qed.

(** ** The embedding client: [get_batch_embeddings] *)

Abbreviation embedding := (list Q).

(** What one [requests.post] of the retry loop comes to. *)
Inductive response :=
| HTTPError (status_code : Z)        (* [raise_for_status] raised *)
| OtherException                     (* timeout, connection error, a body that is
                                        not JSON, an item without its fields *)
| NoDataField                        (* a 2xx body without ['data'] *)
| Data (items : list (Z * embedding)). (* a 2xx body: [index] and [embedding] of each item *)

(** What the loop does that the caller can observe from outside. *)
Inductive event := Post | Sleep (seconds : Z).

Definition max_retries : nat := 3.
Definition retry_delay : Z := 2.
Definition embedding_api_batch_size : nat := 10.
Definition db_batch_size : nat := 100.

(** [sorted(items, key=lambda x: x['index'])]: a stable sort *)
Fixpoint insert_by_index (x : Z * embedding) (l : list (Z * embedding))
  : list (Z * embedding) :=
  match l with
  | [] => [x]
  | y :: l' => if (fst x <=? fst y)%Z then x :: l else y :: insert_by_index x l'
  end.

Definition sorted_by_index (items : list (Z * embedding)) : list (Z * embedding) :=
  fold_right insert_by_index [] items.

(** [text and not text.isspace()] *)
Definition valid (text : str) : bool := nonempty text && negb (isspace text).

(** [time.sleep(...)] at the end of an iteration that did not [break] *)
Definition pause (attempt : nat) : list event :=
  if (attempt <? max_retries - 1)%nat
  then [Sleep (retry_delay * (Z.of_nat attempt + 1))]
  else [].

(** [for attempt in range(max_retries)], with [n] iterations left; the result
    is [api_results] and the requests and sleeps made. *)
Fixpoint retry_loop (server : nat -> response) (n attempt : nat)
  : option (list embedding) * list event :=
  match n with
  | O => (None, [])
  | S n' =>
      let continue :=
        let r := retry_loop server n' (S attempt) in
        (fst r, Post :: pause attempt ++ snd r) in
      match server attempt with
      | Data items => (Some (map snd (sorted_by_index items)), [Post])
      | NoDataField => continue
      | HTTPError status_code =>
          if (status_code =? 400)%Z then (None, [Post]) else continue
      | OtherException => continue
      end
  end.

(** The responses after which the loop goes on to its next iteration: an HTTP
    error whose status is not 400, any other exception, a body without data. *)
Definition retried (r : response) : bool :=
  match r with
  | Data _ => false
  | HTTPError status_code => negb (status_code =? 400)%Z
  | OtherException | NoDataField => true
  end.

(** [[i for i, text in enumerate(texts) if text and not text.isspace()]] *)
Fixpoint valid_indices_from (i : nat) (texts : list str) : list nat :=
  match texts with
  | [] => []
  | t :: rest =>
      if valid t then i :: valid_indices_from (S i) rest
      else valid_indices_from (S i) rest
  end.

(** [for i, embedding in enumerate(api_results):
       results[valid_indices[i]] = embedding] *)
Fixpoint rehydrate (valid_indices : list nat) (i : nat) (api_results : list embedding)
  (results : list (option embedding)) : result (list (option embedding)) :=
  match api_results with
  | [] => Ok results
  | e :: rest =>
      match valid_indices !! i with
      | None => Raise IndexError
      | Some original_index =>
          rehydrate valid_indices (S i) rest (<[original_index := Some e]> results)
      end
  end.

(** [service valid_texts attempt] is the outcome of the request number
    [attempt] that carries [valid_texts]. *)
Definition get_batch_embeddings (service : list str -> nat -> response)
  (texts : list str) : result (list (option embedding)) * list event :=
  if negb (nonempty texts) then (Ok [], [])
  else
    let valid_texts := List.filter valid texts in
    if negb (nonempty valid_texts) then (Ok (replicate (length texts) None), [])
    else
      let r := retry_loop (service valid_texts) max_retries 0 in
      let results := replicate (length texts) None in
      (match fst r with
       | Some (e :: es) => rehydrate (valid_indices_from 0 texts) 0 (e :: es) results
       | _ => Ok results
       end, snd r).

(** ** The concurrent orchestrator *)

(** [[l[i:i + size] for i in range(0, len(l), size)]] *)
Fixpoint slices {A} (fuel size : nat) (l : list A) : list (list A) :=
  match fuel with
  | O => []
  | S fuel' =>
      match l with
      | [] => []
      | _ => take size l :: slices fuel' size (drop size l)
      end
  end.

Definition batches_of {A} (size : nat) (l : list A) : list (list A) :=
  slices (length l) size l.

(** [for future in as_completed(future_to_index):
       results_in_order[future_to_index[future]] = future.result()]
    where [completion] lists the submission indices in the order in which
    the futures complete and [futures] holds each worker's outcome. *)
Fixpoint collect (completion : list nat)
  (futures : list (result (list (option embedding))))
  (results_in_order : list (option (list (option embedding))))
  : result (list (option (list (option embedding)))) :=
  match completion with
  | [] => Ok results_in_order
  | index :: rest =>
      match futures !! index with
      | Some (Ok r) => collect rest futures (<[index := Some r]> results_in_order)
      | Some (Raise e) => Raise e
      | None => collect rest futures results_in_order
      end
  end.

(** [for result_batch in results_in_order:
       if result_batch: all_embeddings.extend(result_batch)] *)
Definition merge (results_in_order : list (option (list (option embedding))))
  : list (option embedding) :=
  concat (map (fun result_batch =>
                 match result_batch with
                 | Some (x :: l) => x :: l
                 | _ => []
                 end) results_in_order).

Definition gather (completion : list nat)
  (futures : list (result (list (option embedding))))
  : result (list (option embedding)) :=
  r <- collect completion futures (replicate (length futures) None) ;;
  Ok (merge r).

(** ** The relational store *)

(** The four tables the loader writes; the [id] column of [lines] is left
    out, nothing reads it. The schema is not among the sources: the generated
    [id] of a row is taken to be the next integer above those of its table
    ([next_id]), which is what a sequence gives on a table from which no
    insert was skipped or rolled back. The values of the ids are stated below
    only for a fresh database. *)
Record tables := {
  dynasties : list (Z * str);               (* id, name *)
  authors : list (Z * str * Z);             (* id, name, dynasty_id *)
  poems : list (Z * str * option Z * str);  (* id, title, author_id, full_content *)
  lines : list (Z * str * embedding)        (* poem_id, content, embedding *)
}.

(** A connection with [autocommit = False]: what is committed, and what the
    open transaction sees. [rollback] is what [conn.rollback()] does to the
    tables when the server carries it out; whether it does is the statement
    [Rollback] below. *)
Record connection := { committed : tables; pending : tables }.

Definition commit (conn : connection) : connection :=
  {| committed := pending conn; pending := pending conn |}.

Definition rollback (conn : connection) : connection :=
  {| committed := committed conn; pending := committed conn |}.

Definition empty_tables : tables :=
  {| dynasties := []; authors := []; poems := []; lines := [] |}.

(** What the loader asks of the connection, each of which may raise: the
    statements of one batch, and the [conn.rollback()] of the two handlers,
    which raises when the connection is lost. *)
Inductive statement :=
| OpenCursor | InsertDynasties | SelectDynasties | InsertAuthors | SelectAuthors
| CreateTempPoems | InsertTempPoems | InsertPoems | InsertLines | Commit
| Rollback.

Definition next_id (ids : list Z) : Z := (1 + fold_right Z.max 0 ids)%Z.

(** [INSERT INTO dynasties (name) ... ON CONFLICT (name) DO NOTHING] *)
Fixpoint insert_dynasties (names : list str) (t : list (Z * str)) : list (Z * str) :=
  match names with
  | [] => t
  | n :: rest =>
      insert_dynasties rest
        (if existsb (fun r => str_eqb (snd r) n) t then t
         else t ++ [(next_id (map fst t), n)])
  end.

(** [{name: id for id, name in SELECT ... WHERE name = ANY(names)}] *)
Definition select_dynasties (names : list str) (t : list (Z * str)) : list (str * Z) :=
  map (fun r => (snd r, fst r))
      (List.filter (fun r => existsb (str_eqb (snd r)) names) t).

Fixpoint lookup_id {K} (eqb : K -> K -> bool) (m : list (K * Z)) (k : K) : option Z :=
  match m with
  | [] => None
  | (k', v) :: m' => if eqb k' k then Some v else lookup_id eqb m' k
  end.

(** a truthy [m.get(k)] *)
Definition truthy_id (o : option Z) : bool :=
  match o with Some i => negb (i =? 0)%Z | None => false end.

(** [INSERT INTO authors (name, dynasty_id) ... ON CONFLICT ... DO NOTHING] *)
Fixpoint insert_authors (rows : list (str * Z)) (t : list (Z * str * Z))
  : list (Z * str * Z) :=
  match rows with
  | [] => t
  | (n, d) :: rest =>
      insert_authors rest
        (if existsb (fun r => str_eqb (snd (fst r)) n && (snd r =? d)%Z) t then t
         else t ++ [(next_id (map (fun r => fst (fst r)) t), n, d)])
  end.

Definition pair_eqb (a b : str * str) : bool :=
  str_eqb (fst a) (fst b) && str_eqb (snd a) (snd b).

(** [{(author_name, dynasty_name): id for ... in SELECT a.id, a.name, d.name
      FROM authors a JOIN dynasties d ON a.dynasty_id = d.id
      WHERE (a.name, d.name) IN (pairs)}] *)
Definition select_authors (pairs : list (str * str)) (t : tables)
  : list (str * str * Z) :=
  flat_map
    (fun a =>
       flat_map
         (fun d =>
            if (snd a =? fst d)%Z
               && existsb (pair_eqb (snd (fst a), snd d)) pairs
            then [((snd (fst a), snd d), fst (fst a))]
            else [])
         (dynasties t))
    (authors t).

(** [INSERT INTO poems (title, author_id, full_content) SELECT * FROM temp_poems
    RETURNING id]: the table after it and the ids returned, in row order *)
Fixpoint insert_poems (rows : list (str * option Z * str))
  (t : list (Z * str * option Z * str)) : list (Z * str * option Z * str) * list Z :=
  match rows with
  | [] => (t, [])
  | (ttl, a, c) :: rest =>
      let i := next_id (map (fun r => fst (fst (fst r))) t) in
      let r := insert_poems rest (t ++ [(i, ttl, a, c)]) in
      (fst r, i :: snd r)
  end.

(** What surrounds one call of [process_and_insert_batch]: the statements the
    database refuses, the embedding service as each sub-batch worker meets it
    (by submission index), and the order in which the workers complete. *)
Record batch_env := {
  db_fails : statement -> bool;
  service : nat -> list str -> nat -> response;
  completion : list nat
}.

Definition execute (env : batch_env) (st : statement) : result unit :=
  if db_fails env st then Raise DatabaseError else Ok tt.

Definition with_dynasties (t : tables) (d : list (Z * str)) : tables :=
  {| dynasties := d; authors := authors t; poems := poems t; lines := lines t |}.
Definition with_authors (t : tables) (a : list (Z * str * Z)) : tables :=
  {| dynasties := dynasties t; authors := a; poems := poems t; lines := lines t |}.
Definition with_poems (t : tables) (p : list (Z * str * option Z * str)) : tables :=
  {| dynasties := dynasties t; authors := authors t; poems := p; lines := lines t |}.
Definition with_lines (t : tables) (l : list (Z * str * embedding)) : tables :=
  {| dynasties := dynasties t; authors := authors t; poems := poems t; lines := l |}.

(** [for _ in range(count)]: one line per sentence that has a truthy embedding *)
Fixpoint poem_lines (count : nat) (poem_id : Z) (all_sentences : list str)
  (all_embeddings : list (option embedding))
  (acc : list (Z * str * embedding) * nat)
  : result (list (Z * str * embedding) * nat) :=
  match count with
  | O => Ok acc
  | S c =>
      let emb_idx := snd acc in
      lines_to_insert <-
        match all_embeddings !! emb_idx with
        | Some (Some (x :: v)) =>
            match all_sentences !! emb_idx with
            | Some sentence => Ok (fst acc ++ [(poem_id, sentence, x :: v)])
            | None => Raise IndexError
            end
        | _ => Ok (fst acc)
        end ;;
      poem_lines c poem_id all_sentences all_embeddings (lines_to_insert, S emb_idx)
  end.

(** [for i, poem_id in enumerate(poem_ids)] *)
Fixpoint batch_lines (i : nat) (poem_ids : list Z) (poem_sentence_counts : list nat)
  (all_sentences : list str) (all_embeddings : list (option embedding))
  (acc : list (Z * str * embedding) * nat)
  : result (list (Z * str * embedding) * nat) :=
  match poem_ids with
  | [] => Ok acc
  | poem_id :: rest =>
      match poem_sentence_counts !! i with
      | None => Raise IndexError
      | Some count =>
          acc' <- poem_lines count poem_id all_sentences all_embeddings acc ;;
          batch_lines (S i) rest poem_sentence_counts all_sentences all_embeddings acc'
      end
  end.

(** State of a run of the importer: the connection, the entries of
    [processed_files.log], and the number of batches handed to the loader.
    An entry is the path written by one [mark_file_as_processed]; it is one
    line of the file as long as the path holds no line break
    ([single_line] below). *)
Record run_state := { conn : connection; log : list str; batches : nat }.

Definition mark_file_as_processed (file_path : str) (st : run_state) : run_state :=
  {| conn := conn st; log := log st ++ [file_path]; batches := batches st |}.

(** ** The importer: [class PoetryImporter] *)

Record poem := { title : str; author : str; dynasty : str; content : str }.

(** [load_json_files()] with what [open] and [json.load] give for each path:
    the sorted paths of the corpus, each with its parsed document or the
    exception raised while reading it. A [Path] is its string. *)
Abbreviation corpus := (list (str * result json)).

Definition path_author_map : list (str * str) :=
  [ (u "caocao", u "曹操"); (u "nalanxingde", u "纳兰性德");
    (u "shijing", u "佚名"); (u "sishuwujing/lunyu", u "孔子") ].

Definition path_keyword_map : list (str * str) :=
  [ (u "tang", u "唐代"); (u "quan_tang_shi", u "唐代"); (u "song", u "宋代");
    (u "yuan", u "元代"); (u "yuanqu", u "元代"); (u "ming", u "明代");
    (u "qing", u "清代"); (u "wudai", u "五代十国"); (u "huajianji", u "五代十国");
    (u "nantang", u "五代十国"); (u "jin", u "两晋"); (u "nanbeichao", u "南北朝");
    (u "sui", u "隋代"); (u "caocao", u "两汉"); (u "jianan", u "两汉");
    (u "shijing", u "先秦"); (u "chuci", u "先秦"); (u "sishuwujing", u "先秦");
    (u "lunyu", u "先秦") ].

Definition classical_texts : list (str * str) :=
  [ (u "诗经", u "先秦"); (u "楚辞", u "先秦"); (u "论语", u "先秦");
    (u "孟子", u "先秦"); (u "大学", u "先秦"); (u "中庸", u "先秦");
    (u "四书五经", u "先秦"); (u "蒙学", u "古代"); (u "shijing", u "先秦");
    (u "chuci", u "先秦"); (u "lunyu", u "先秦"); (u "mengzi", u "先秦");
    (u "daxue", u "先秦"); (u "zhongyong", u "先秦"); (u "sishuwujing", u "先秦");
    (u "mengxue", u "古代") ].

(** [for k, v in table.items(): if test k: return v] *)
Fixpoint first_value (test : str -> bool) (table : list (str * str)) : option str :=
  match table with
  | [] => None
  | (k, v) :: rest => if test k then Some v else first_value test rest
  end.

Fixpoint lookup_str (m : list (str * str)) (k : str) : option str :=
  match m with
  | [] => None
  | (k', v) :: m' => if str_eqb k' k then Some v else lookup_str m' k
  end.

(** [author_dynasties[k].append(v)] on a [defaultdict(list)] *)
Fixpoint append_to (k v : str) (m : list (str * list str)) : list (str * list str) :=
  match m with
  | [] => [(k, [v])]
  | (k', vs) :: m' =>
      if str_eqb k' k then (k', vs ++ [v]) :: m' else (k', vs) :: append_to k v m'
  end.

Definition count_of (x : str) (l : list str) : nat :=
  length (List.filter (str_eqb x) l).

(** [Counter(l).most_common(1)[0][0]]: the first-seen value among those that
    occur most often. *)
Definition most_common1 (l : list str) : option str :=
  fold_left
    (fun best x =>
       match best with
       | None => Some x
       | Some b => if (count_of b l <? count_of x l)%nat then Some x else best
       end)
    l None.

(** [''.join(v)] *)
Definition join_empty (v : json) : result str :=
  match v with
  | JList l =>
      for_each l
        (fun x acc => match x with JStr s => Ok (acc ++ s) | _ => Raise TypeError end) []
  | JStr s => Ok s
  | JDict d => Ok (concat (map fst d))
  | _ => Raise TypeError
  end.

(** [v.strip()]: only a string has the method. *)
Definition strip_method (v : json) : result str :=
  match v with
  | JStr s => Ok (strip s)
  | _ => Raise AttributeError
  end.

Definition mk_poem (title author dynasty paragraphs : json) : json :=
  JDict [ (u "title", title); (u "author", author);
          (u "dynasty", dynasty); (u "paragraphs", paragraphs) ].

Definition possible_fields : list str :=
  [u "content"; u "paragraphs"; u "text"; u "verses"; u "lines"].

Section Importer.

(** [self.converter.convert] (OpenCC, traditional to simplified) *)
Variable convert : str -> str.
(** [str(v)] for a value that is not a string *)
Variable py_repr : json -> str.
(** [str.lower] *)
Variable lower : str -> str.
(** the class [\d] of [re] *)
Variable is_decimal : N -> bool.

(** [str(v)] *)
Definition py_str (v : json) : str :=
  match v with
  | JStr s => s
  | _ => py_repr v
  end.

Definition _infer_dynasty_from_content (poem_data : dict) : json :=
  let dynasty := get poem_data (u "dynasty") JNull in
  if truthy dynasty then JStr (py_str dynasty) else JStr (u "未知").

(** body of [for item in data['content']] *)
Definition content_item (fallback_author item : json) (poems : list json)
  : result (list json) :=
  match item with
  | JDict i =>
      c <- list_at i (u "content") ;;
      if c then
        paragraphs <- getitem i (u "content") ;;
        Ok (poems ++
            [mk_poem (get i (u "title") (JStr (u "无题")))
                     (get i (u "author") (py_or fallback_author (JStr (u "佚名"))))
                     (get i (u "dynasty") (_infer_dynasty_from_content i))
                     paragraphs])
      else Ok (poems ++ [item])
  | _ => Ok poems
  end.

(** body of [for paragraph in data['paragraphs']] when [data] has a chapter *)
Definition chapter_paragraph (data : dict) (fallback_author paragraph : json)
  (poems : list json) : result (list json) :=
  t <- getitem data (u "chapter") ;;
  Ok (poems ++
      [mk_poem t (py_or fallback_author (JStr (u "孔子"))) (JStr (u "先秦"))
               (JList [paragraph])]).

(** body of [for chapter in data['chapters']] *)
Definition chapters_item (data : dict) (fallback_author chapter : json)
  (poems : list json) : result (list json) :=
  match chapter with
  | JDict ch =>
      c <- list_at ch (u "paragraphs") ;;
      if c then
        ps <- getitem ch (u "paragraphs") ;;
        paras <- iter ps ;;
        for_each paras
          (fun para poems =>
             Ok (poems ++
                 [mk_poem (py_or (get ch (u "title") JNull)
                                 (get ch (u "chapter") (JStr (u "未知篇章"))))
                          (get ch (u "author") fallback_author)
                          (get ch (u "dynasty") (get data (u "dynasty") JNull))
                          (if is_str para then JList [para] else para)]))
          poems
      else
        Ok (poems ++
            [mk_poem (get ch (u "title") (JStr (u "未知篇章")))
                     (get ch (u "author") fallback_author)
                     (get ch (u "dynasty") (get data (u "dynasty") JNull))
                     (get ch (u "paragraphs") (JList []))])
  | _ => Ok poems
  end.

(** body of [for section in data['sections']] *)
Definition sections_item (data : dict) (fallback_author section : json)
  (poems : list json) : result (list json) :=
  match section with
  | JDict sec =>
      Ok (poems ++
          [mk_poem (get sec (u "title") (get data (u "title") (JStr (u "无题"))))
                   (get sec (u "author") fallback_author)
                   (get sec (u "dynasty") (get data (u "dynasty") JNull))
                   (get sec (u "paragraphs") (get sec (u "content") (JList [])))])
  | _ => Ok poems
  end.

(** body of [for text_item in data['text']] *)
Definition text_item (data : dict) (fallback_author item : json)
  (poems : list json) : result (list json) :=
  match item with
  | JDict ti =>
      Ok (poems ++
          [mk_poem (get ti (u "title") (get data (u "title") (JStr (u "无题"))))
                   (get ti (u "author") fallback_author)
                   (get ti (u "dynasty") (get data (u "dynasty") (JStr (u "未知"))))
                   (get ti (u "paragraphs") (get ti (u "content") (JList [])))])
  | _ => Ok poems
  end.

(** [for x in data[k]: body] *)
Definition loop_over (data : dict) (k : str)
  (body : json -> list json -> result (list json)) : result (list json) :=
  v <- getitem data k ;;
  items <- iter v ;;
  for_each items body [].

(** the [if / elif] chain over the recognised shapes of a mapping *)
Definition recognised_shapes (data : dict) (fallback_author : json) : result (list json) :=
  c1 <- list_at data (u "content") ;;
  if c1 then loop_over data (u "content") (content_item fallback_author)
  else
  c2 <- list_at data (u "paragraphs") ;;
  if c2 then
    if has_key data (u "chapter")
    then loop_over data (u "paragraphs") (chapter_paragraph data fallback_author)
    else Ok [JDict data]
  else
  c3 <- list_at data (u "chapters") ;;
  if c3 then loop_over data (u "chapters") (chapters_item data fallback_author)
  else
  c4 <- list_at data (u "sections") ;;
  if c4 then loop_over data (u "sections") (sections_item data fallback_author)
  else
  if has_key data (u "title") && (has_key data (u "paragraphs") || has_key data (u "content"))
  then Ok [JDict data]
  else
  c6 <- list_at data (u "text") ;;
  if c6 then loop_over data (u "text") (text_item data fallback_author)
  else Ok [].

(** [for field in possible_fields: ... break] *)
Fixpoint probe_fields (fields : list str) (data : dict) (fallback_author : json)
  (poems : list json) : result (list json) :=
  match fields with
  | [] => Ok poems
  | field :: rest =>
      c <- list_at data field ;;
      if c then
        content_list <- getitem data field ;;
        strings <- (if truthy content_list
                    then x <- index0 content_list ;; Ok (is_str x)
                    else Ok false) ;;
        if strings then
          Ok (poems ++
              [mk_poem (get data (u "title") (JStr (u "无题")))
                       (get data (u "author") fallback_author)
                       (get data (u "dynasty") (JStr (u "未知")))
                       content_list])
        else Ok poems
      else probe_fields rest data fallback_author poems
  end.

(** [any(keyword in str(data).lower() for keyword in keywords)] *)
Definition any_keyword (keywords : list str) (data : json) : bool :=
  existsb (fun keyword => contains keyword (lower (py_str data))) keywords.

(** the keyword sniffing of the classical-text families *)
Definition sniff (data : dict) (poems : list json) : result (list json) :=
  if any_keyword [u "论语"; u "大学"; u "中庸"; u "孟子"] (JDict data) then
    c <- list_at data (u "paragraphs") ;;
    if c then
      ps <- getitem data (u "paragraphs") ;;
      Ok (poems ++
          [mk_poem (get data (u "chapter") (get data (u "title") (JStr (u "经典篇章"))))
                   (JStr (u "孔子")) (JStr (u "先秦")) ps])
    else Ok poems
  else if any_keyword [u "诗经"; u "楚辞"] (JDict data) then
    if has_key data (u "title") then
      t <- getitem data (u "title") ;;
      Ok (poems ++
          [mk_poem t (get data (u "author") (JStr (u "佚名")))
                   (get data (u "dynasty") (JStr (u "先秦")))
                   (get data (u "paragraphs") (get data (u "content") (JList [])))])
    else Ok poems
  else Ok poems.

Definition _extract_poems_from_data (data : json) : result (list json * json) :=
  match data with
  | JList l => Ok (List.filter is_dict l, JNull)
  | JDict d =>
      let fallback_author := get d (u "author") JNull in
      poems <- recognised_shapes d fallback_author ;;
      poems <- (if nonempty poems then Ok poems
                else probe_fields possible_fields d fallback_author poems) ;;
      poems <- (if nonempty poems then Ok poems else sniff d poems) ;;
      Ok (poems, fallback_author)
  | _ => Ok ([], JNull)
  end.

(** [_infer_dynasty]; [author_dynasty_map] is the table built at start-up. *)
Definition _infer_dynasty (author_dynasty_map : list (str * str))
  (author file_path : str) : str :=
  match lookup_str author_dynasty_map author with
  | Some d => d
  | None =>
      let file_path_str := lower file_path in
      match first_value (fun text => contains (lower text) (lower file_path_str))
                        classical_texts with
      | Some d => d
      | None =>
          match first_value (fun keyword => contains keyword file_path_str)
                            path_keyword_map with
          | Some d => d
          | None => u "未知"
          end
      end
  end.

(** [process_poem_data]: the body of the [try] is [process_poem_try], and
    [except Exception: return None] turns a raise into [None]. *)
Definition process_poem_try (author_dynasty_map : list (str * str))
  (poem_data : dict) (file_path : str) (fallback_author : json)
  : result (option poem) :=
  let title_ :=
    take 500 (convert (strip (py_str (get poem_data (u "title") (JStr (u "无题")))))) in
  let author_str := get poem_data (u "author") fallback_author in
  let author_str :=
    if truthy author_str then author_str
    else
      let file_path_str := lower file_path in
      match first_value (fun keyword => contains keyword file_path_str)
                        path_author_map with
      | Some author_name => JStr author_name
      | None => JStr (u "佚名")
      end in
  stripped <- strip_method author_str ;;
  let author_ := take 200 (convert stripped) in
  let dynasty_ :=
    take 200 (convert (strip (py_str (get poem_data (u "dynasty") (JStr []))))) in
  let content_list := get poem_data (u "paragraphs") (JList []) in
  joined <- join_empty content_list ;;
  let content_ := convert joined in
  if negb (nonempty content_) then Ok None
  else
    let dynasty_ :=
      if negb (nonempty dynasty_)
      then _infer_dynasty author_dynasty_map author_ file_path
      else dynasty_ in
    Ok (Some {| title := title_; author := author_;
                dynasty := dynasty_; content := content_ |}).

Definition process_poem_data (author_dynasty_map : list (str * str))
  (poem_data : dict) (file_path : str) (fallback_author : json) : option poem :=
  match process_poem_try author_dynasty_map poem_data file_path fallback_author with
  | Ok r => r
  | Raise _ => None
  end.

(** one poem of the pre-scan *)
Definition scan_poem (author_dynasties : list (str * list str)) (p : json)
  : list (str * list str) :=
  match p with
  | JDict d =>
      let a := get d (u "author") JNull in
      let dy := get d (u "dynasty") JNull in
      if truthy a && truthy dy then
        let author_s := take 200 (convert (strip (py_str a))) in
        let dynasty_s := take 200 (convert (strip (py_str dy))) in
        append_to author_s dynasty_s author_dynasties
      else author_dynasties
  | _ => author_dynasties
  end.

(** one file of the pre-scan; [except Exception: continue] *)
Definition scan_file (author_dynasties : list (str * list str))
  (f : str * result json) : list (str * list str) :=
  match (data <- snd f ;; _extract_poems_from_data data) with
  | Ok (poems_list, _) => fold_left scan_poem poems_list author_dynasties
  | Raise _ => author_dynasties
  end.

Definition _create_author_dynasty_map (files : corpus) : list (str * str) :=
  let author_dynasties := fold_left scan_file files [] in
  omap (fun ad : str * list str =>
          if nonempty (snd ad)
          then d ← most_common1 (snd ad); Some (fst ad, d)
          else None)
       author_dynasties.

(** *** Sentence segmentation *)

(** the rest of [s] after the first [close], when no newline comes before it:
    what [.*?] followed by [close] consumes *)
Fixpoint lazy_until (close : N) (s : str) : option nat :=
  match s with
  | [] => None
  | c :: s' =>
      if c =? close then Some 1%nat
      else if c =? 10 then None
      else n ← lazy_until close s'; Some (S n)
  end.

(** [\d+\]]: the length of a non-empty run of digits and the bracket after it *)
Fixpoint digits_then_bracket (seen : bool) (s : str) : option nat :=
  match s with
  | [] => None
  | c :: s' =>
      if is_decimal c then n ← digits_then_bracket true s'; Some (S n)
      else if seen && (c =? 93) then Some 1%nat
      else None
  end.

(** the length of the match of [noise_pattern] at the head of [s]:
    [\[\d+\]|【.*?】|（.*?）|\(.*?\)|<.*?>] *)
Definition noise_match (s : str) : option nat :=
  match s with
  | [] => None
  | c :: s' =>
      if c =? 91 then n ← digits_then_bracket false s'; Some (S n)
      else if c =? 12304 then n ← lazy_until 12305 s'; Some (S n)
      else if c =? 65288 then n ← lazy_until 65289 s'; Some (S n)
      else if c =? 40 then n ← lazy_until 41 s'; Some (S n)
      else if c =? 60 then n ← lazy_until 62 s'; Some (S n)
      else None
  end.

(** [noise_pattern.sub('', s)], with [skip] characters of a match left to drop *)
Fixpoint sub_noise (skip : nat) (s : str) : str :=
  match s with
  | [] => []
  | c :: s' =>
      match skip with
      | S k => sub_noise k s'
      | O =>
          match noise_match s with
          | Some (S k) => sub_noise k s'
          | _ => c :: sub_noise 0 s'
          end
      end
  end.

Definition is_terminator (c : N) : bool :=
  (c =? 12290) || (c =? 65281) || (c =? 65311).

(** [sentence_pattern.split(s)] with [cur] the piece being read *)
Fixpoint split_on (cur : str) (s : str) : list str :=
  match s with
  | [] => [cur]
  | c :: s' =>
      if is_terminator c then cur :: split_on [] s' else split_on (cur ++ [c]) s'
  end.

Definition split_sentences (text : str) : list str :=
  let text_cleaned := sub_noise 0 text in
  let text_cleaned := List.filter (fun c => negb (is_space c)) text_cleaned in
  let sentences := split_on [] text_cleaned in
  map strip (List.filter (fun s => (4 <=? length (strip s))%nat) sentences).

(** *** The transactional loader *)

(** the body of the [try] of [process_and_insert_batch], from the tables the
    transaction sees to those it commits *)
Definition batch_try (env : batch_env) (poem_batch : list poem) (t : tables)
  : result tables :=
  let dynasties_ := remove_dups (map dynasty poem_batch) in
  let authors_ := remove_dups (map (fun p => (author p, dynasty p)) poem_batch) in
  r <- (if nonempty dynasties_ then
          _ <- execute env InsertDynasties ;;
          let t1 := with_dynasties t (insert_dynasties dynasties_ (dynasties t)) in
          _ <- execute env SelectDynasties ;;
          Ok (t1, select_dynasties dynasties_ (dynasties t1))
        else Ok (t, [])) ;;
  let t := fst r in
  let dynasty_map := snd r in
  let authors_to_insert :=
    omap (fun a : str * str =>
            let i := lookup_id str_eqb dynasty_map (snd a) in
            if truthy_id i then d ← i; Some (fst a, d) else None)
         authors_ in
  t <- (if nonempty authors_to_insert then
          _ <- execute env InsertAuthors ;;
          Ok (with_authors t (insert_authors authors_to_insert (authors t)))
        else Ok t) ;;
  author_map <- (if nonempty authors_ then
                   _ <- execute env SelectAuthors ;;
                   Ok (select_authors authors_ t)
                 else Ok []) ;;
  let poems_to_insert :=
    map (fun p => (title p, lookup_id pair_eqb author_map (author p, dynasty p), content p))
        poem_batch in
  _ <- execute env CreateTempPoems ;;
  _ <- execute env InsertTempPoems ;;
  _ <- execute env InsertPoems ;;
  let inserted := insert_poems poems_to_insert (poems t) in
  let t := with_poems t (fst inserted) in
  let poem_ids := snd inserted in
  let sentences := map (fun p => split_sentences (content p)) poem_batch in
  let all_sentences := concat sentences in
  let poem_sentence_counts := map length sentences in
  t <- (if nonempty all_sentences then
          let batches := batches_of embedding_api_batch_size all_sentences in
          let futures :=
            imap (fun i batch => fst (get_batch_embeddings (service env i) batch))
                 batches in
          all_embeddings <- gather (completion env) futures ;;
          r <- batch_lines 0 poem_ids poem_sentence_counts all_sentences
                 all_embeddings ([], 0%nat) ;;
          let lines_to_insert := fst r in
          if nonempty lines_to_insert then
            _ <- execute env InsertLines ;;
            Ok (with_lines t (lines t ++ lines_to_insert))
          else Ok t
        else Ok t) ;;
  _ <- execute env Commit ;;
  Ok t.

(** [process_and_insert_batch]: what the call comes to for its caller, and the
    connection after it. [conn.cursor()] stands before the [try]; the handler
    ends in [conn.rollback()], and what that raises leaves the call. *)
Definition process_and_insert_batch (env : batch_env) (poem_batch : list poem)
  (c : connection) : result unit * connection :=
  if negb (nonempty poem_batch) then (Ok tt, c)
  else
    match execute env OpenCursor with
    | Raise e => (Raise e, c)
    | Ok _ =>
        match batch_try env poem_batch (pending c) with
        | Ok t => (Ok tt, commit {| committed := committed c; pending := t |})
        | Raise _ =>
            match execute env Rollback with
            | Ok _ => (Ok tt, rollback c)
            | Raise e => (Raise e, c)
            end
        end
    end.

(** *** The run *)

Definition insert_batch (envs : nat -> batch_env) (poem_batch : list poem)
  (st : run_state) : result unit * run_state :=
  let r := process_and_insert_batch (envs (batches st)) poem_batch (conn st) in
  (fst r, {| conn := snd r; log := log st; batches := S (batches st) |}).

(** [for poem_data in poems_list] *)
Fixpoint poems_loop (author_dynasty_map : list (str * str)) (envs : nat -> batch_env)
  (file_path : str) (file_level_author : json) (poems_list : list json)
  (poem_batch : list poem) (st : run_state) : result (list poem) * run_state :=
  match poems_list with
  | [] => (Ok poem_batch, st)
  | JDict poem_data :: rest =>
      let poem_batch :=
        match process_poem_data author_dynasty_map poem_data file_path file_level_author with
        | Some processed => poem_batch ++ [processed]
        | None => poem_batch
        end in
      if (db_batch_size <=? length poem_batch)%nat then
        let r := insert_batch envs poem_batch st in
        match fst r with
        | Ok _ =>
            poems_loop author_dynasty_map envs file_path file_level_author rest [] (snd r)
        | Raise e => (Raise e, snd r)
        end
      else poems_loop author_dynasty_map envs file_path file_level_author rest poem_batch st
  | _ :: rest =>
      poems_loop author_dynasty_map envs file_path file_level_author rest poem_batch st
  end.

(** the body of the [try] of the loop over the files *)
Definition import_file_try (author_dynasty_map : list (str * str))
  (envs : nat -> batch_env) (f : str * result json) (st : run_state)
  : result unit * run_state :=
  match (data <- snd f ;; _extract_poems_from_data data) with
  | Raise e => (Raise e, st)
  | Ok (poems_list, file_level_author) =>
      if negb (nonempty poems_list) then (Ok tt, mark_file_as_processed (fst f) st)
      else
        let r := poems_loop author_dynasty_map envs (fst f) file_level_author
                   poems_list [] st in
        match fst r with
        | Raise e => (Raise e, snd r)
        | Ok poem_batch =>
            let r2 := if nonempty poem_batch
                      then insert_batch envs poem_batch (snd r)
                      else (Ok tt, snd r) in
            match fst r2 with
            | Raise e => (Raise e, snd r2)
            | Ok _ => (Ok tt, mark_file_as_processed (fst f) (snd r2))
            end
        end
  end.

(** one iteration: [except Exception: logger.error(...); conn.rollback()].
    The rollback of the handler is asked of the connection as the next batch
    would find it; what it raises leaves the loop. *)
Definition import_file (author_dynasty_map : list (str * str))
  (envs : nat -> batch_env) (st : run_state) (f : str * result json)
  : result unit * run_state :=
  let r := import_file_try author_dynasty_map envs f st in
  match fst r with
  | Ok _ => (Ok tt, snd r)
  | Raise _ =>
      match execute (envs (batches (snd r))) Rollback with
      | Ok _ =>
          (Ok tt, {| conn := rollback (conn (snd r)); log := log (snd r);
                     batches := batches (snd r) |})
      | Raise e => (Raise e, snd r)
      end
  end.

(** [for file_path in files_to_process] *)
Fixpoint import_files (author_dynasty_map : list (str * str))
  (envs : nat -> batch_env) (files_to_process : corpus) (st : run_state)
  : result unit * run_state :=
  match files_to_process with
  | [] => (Ok tt, st)
  | f :: rest =>
      let r := import_file author_dynasty_map envs st f in
      match fst r with
      | Ok _ => import_files author_dynasty_map envs rest (snd r)
      | Raise e => (Raise e, snd r)
      end
  end.

(** [PoetryImporter().run_import()]: [__init__] builds the author table from
    the corpus, then the files not yet in the log are imported in order. The
    call returns, or raises what a rollback of the loop raised. *)
Definition run_import_call (files : corpus) (envs : nat -> batch_env) (st : run_state)
  : result unit * run_state :=
  let author_dynasty_map := _create_author_dynasty_map files in
  let processed_files := map strip (log st) in
  let files_to_process :=
    List.filter (fun f => negb (existsb (str_eqb (fst f)) processed_files)) files in
  import_files author_dynasty_map envs files_to_process st.

(** the state in which [run_import] ends, whether it returns or raises *)
Definition run_import (files : corpus) (envs : nat -> batch_env) (st : run_state)
  : run_state :=
  snd (run_import_call files envs st).

End Importer.


(** ** Semantic retrieval: [semantic_search] of the HTTP service *)

Module Retrieval.

(** The columns the query reads. *)
Record poem_row := {
  id : Z; title : str; author : str; dynasty : str; full_content : str
}.

Record line_row := { poem_id : Z; line_embedding : option embedding }.

(** [PoemResponse]: the columns of the row, and the score. *)
Record PoemResponse := { source : poem_row; score : Q }.

(** [round(x, 4)]: to the nearest multiple of 1/10000, ties to even *)
Definition round_half_even (q : Q) : Z :=
  let f := Qfloor q in
  let r := (q - inject_Z f)%Q in
  match (r ?= 1 # 2)%Q with
  | Lt => f
  | Gt => (f + 1)%Z
  | Eq => if Z.even f then f else (f + 1)%Z
  end.

Definition round4 (q : Q) : Q := (round_half_even (q * 10000) # 10000)%Q.

(** [1.0 - float(row['distance']) if row['distance'] else 0.0] *)
Definition similarity_score (distance : option Q) : Q :=
  match distance with
  | Some d => if Qeq_bool d 0 then 0%Q else (1 - d)%Q
  | None => 0%Q
  end.

(** [keywords.split(',')] *)
Fixpoint split_commas (cur : str) (s : str) : list str :=
  match s with
  | [] => [cur]
  | c :: s' => if c =? 44 then cur :: split_commas [] s' else split_commas (cur ++ [c]) s'
  end.

Fixpoint add_vectors (a b : embedding) : result embedding :=
  match a, b with
  | [], [] => Ok []
  | x :: a', y :: b' => r <- add_vectors a' b' ;; Ok ((x + y)%Q :: r)
  | _, _ => Raise ValueError
  end.

(** [np.mean(embeddings, axis=0).tolist()] of a non-empty list of vectors *)
Definition mean_vectors (first : embedding) (others : list embedding) : result embedding :=
  total <- for_each others (fun e acc => add_vectors acc e) first ;;
  Ok (map (fun x => (x / inject_Z (Z.of_nat (S (length others))))%Q) total).

(** *** The embedding client of the service: [AliEmbeddingClient.get_embedding] *)

(** The body of a response with status 200. *)
Inductive body :=
| Vector (e : option embedding)  (* [result['output']['embeddings'][0]['embedding']] *)
| MissingKeys                    (* no ['output'], or no ['embeddings'] in it *)
| Broken.                        (* not JSON, or the path to the vector raises *)

(** What one [requests.post] comes to. *)
Inductive reply :=
| Responded (status_code : Z) (b : body)
| Failed.                        (* [requests.post] raised *)

(** [time.sleep(1)] at the end of an iteration that did not return *)
Definition rest (max_retries attempt : nat) : list event :=
  if (attempt <? max_retries - 1)%nat then [Sleep 1] else [].

(** [for attempt in range(max_retries)] with [n] iterations left: the value
    returned, and the requests and sleeps made. *)
Fixpoint embedding_loop (server : nat -> reply) (max_retries n attempt : nat)
  : option embedding * list event :=
  match n with
  | O => (None, [])
  | S n' =>
      let continue :=
        let r := embedding_loop server max_retries n' (S attempt) in
        (fst r, Post :: rest max_retries attempt ++ snd r) in
      match server attempt with
      | Responded status_code b =>
          if (status_code =? 200)%Z then
            match b with
            | Vector e => (e, [Post])
            | MissingKeys => (None, [Post])
            | Broken => continue
            end
          else continue
      | Failed => continue
      end
  end.

(** [get_embedding(text, max_retries)] against a service that answers the
    request number [attempt] for [text] with [api text attempt]. *)
Definition get_embedding_from (api : str -> nat -> reply) (max_retries : nat)
  (text : str) : option embedding * list event :=
  embedding_loop (api text) max_retries max_retries 0.

(** the number of requests of a trace *)
Definition requests (trace : list event) : nat :=
  length (List.filter (fun ev => match ev with Post => true | Sleep _ => false end) trace).

(** the replies after which the loop goes on *)
Definition tried_again (r : reply) : bool :=
  match r with
  | Responded status_code b =>
      if (status_code =? 200)%Z
      then match b with Broken => true | _ => false end
      else true
  | Failed => true
  end.

Section Search.

(** pgvector's [<=>] *)
Variable cosine_distance : embedding -> embedding -> Q.
(** [embedding_client.get_embedding] *)
Variable get_embedding : str -> option embedding.

Definition get_multi_embeddings (texts : list str) : result embedding :=
  let embeddings :=
    omap (fun text =>
            match get_embedding (strip text) with
            | Some (x :: v) => Some (x :: v)
            | _ => None
            end) texts in
  match embeddings with
  | [] => Raise (HTTPException 500)
  | e :: es => mean_vectors e es
  end.

(** the distances of the lines of one poem that have an embedding *)
Definition distances (lines : list line_row) (q : embedding) (p : poem_row) : list Q :=
  omap (fun l =>
          if (poem_id l =? id p)%Z
          then e ← line_embedding l; Some (cosine_distance e q)
          else None) lines.

(** [MIN(...)] of a group *)
Definition minimum (ds : list Q) : option Q :=
  match ds with
  | [] => None
  | d :: rest => Some (fold_left Qmin rest d)
  end.

(** [... JOIN ... WHERE l.embedding IS NOT NULL GROUP BY p.id, ...]: one row
    per poem that has a line with an embedding *)
Definition grouped (poems : list poem_row) (lines : list line_row) (q : embedding)
  : list (poem_row * Q) :=
  omap (fun p => d ← minimum (distances lines q p); Some (p, d)) poems.

Fixpoint insert_by_distance (x : poem_row * Q) (l : list (poem_row * Q))
  : list (poem_row * Q) :=
  match l with
  | [] => [x]
  | y :: l' => if Qle_bool (snd x) (snd y) then x :: l else y :: insert_by_distance x l'
  end.

(** [ORDER BY distance ASC] *)
Definition order_by_distance (rows : list (poem_row * Q)) : list (poem_row * Q) :=
  fold_right insert_by_distance [] rows.

(** [vector_search_sql] with its [LIMIT] and [OFFSET] *)
Definition vector_search (poems : list poem_row) (lines : list line_row)
  (query_embedding : embedding) (limit offset : nat) : list (poem_row * Q) :=
  take limit (drop offset (order_by_distance (grouped poems lines query_embedding))).

Definition present (row : poem_row * Q) : PoemResponse :=
  {| source := fst row; score := round4 (similarity_score (Some (snd row))) |}.

(** The body of [semantic_search], which runs with the parameters the route
    has accepted and the client it was given. *)
Definition semantic_search (poems : list poem_row) (lines : list line_row)
  (keywords : str) (limit offset : nat) : result (list PoemResponse) :=
  let keyword_list :=
    map strip (List.filter (fun kw => nonempty (strip kw)) (split_commas [] keywords)) in
  if negb (nonempty keyword_list) then Raise (HTTPException 400)
  else
    match get_multi_embeddings keyword_list with
    | Raise _ => Raise (HTTPException 500)
    | Ok query_embedding =>
        Ok (map present (vector_search poems lines query_embedding limit offset))
    end.

End Search.

(** The route [GET /search/semantic] around that body. The dependency
    [get_embedding_client] raises 503 when no client could be built, and a
    [limit] outside [ge=1, le=100] or an [offset] outside [ge=0] is answered
    with 422; the body runs only past both. *)
Definition semantic_search_route (cosine_distance : embedding -> embedding -> Q)
  (embedding_client : option (str -> option embedding))
  (poems : list poem_row) (lines : list line_row)
  (keywords : str) (limit offset : Z) : result (list PoemResponse) :=
  match embedding_client with
  | None => Raise (HTTPException 503)
  | Some get_embedding =>
      if ((1 <=? limit) && (limit <=? 100) && (0 <=? offset))%Z
      then semantic_search cosine_distance get_embedding poems lines keywords
             (Z.to_nat limit) (Z.to_nat offset)
      else Raise (HTTPException 422)
  end.

End Retrieval.

(** ** Sample inputs *)

Module Sample.

(** The converter on text that is already in simplified script: unchanged. *)
Definition simplified (s : str) : str := s.

(** [str.lower] on ASCII letters. *)
Definition ascii_lower (s : str) : str :=
  map (fun c => if (65 <=? c) && (c <=? 90) then c + 32 else c) s.

(** The ASCII digits of [\d]. *)
Definition ascii_digit (c : N) : bool := (48 <=? c) && (c <=? 57).

(** An instance of [str()] for the documents below, whose fields are all
    strings, so that it is never consulted. *)
Definition any_repr (_ : json) : str := [].

(** [{title: "T", author: "A", dynasty: "D", paragraphs: ["一句。", "二句！"]}] *)
Definition document : dict :=
  [ (u "title", JStr (u "T")); (u "author", JStr (u "A")); (u "dynasty", JStr (u "D"));
    (u "paragraphs", JList [JStr (u "一句。"); JStr (u "二句！")]) ].

Definition file_path : str := u "/data/chinese-poetry/sample.json".

Definition one_file_corpus : corpus := [(file_path, Ok (JDict document))].

(** A service that answers every request with one vector per input. *)
Definition healthy_service (texts : list str) (attempt : nat) : response :=
  Data (imap (fun i _ => (Z.of_nat i, [1%Q; 0%Q])) texts).

(** A service that fails every request. *)
Definition failing_service (texts : list str) (attempt : nat) : response :=
  OtherException.

Definition healthy : batch_env :=
  {| db_fails := fun _ => false; service := fun _ => healthy_service; completion := [] |}.

Definition embedding_down : batch_env :=
  {| db_fails := fun _ => false; service := fun _ => failing_service; completion := [] |}.

(** The database refuses the insertion of the poems. *)
Definition poem_insert_refused : batch_env :=
  {| db_fails := fun st => match st with InsertPoems => true | _ => false end;
     service := fun _ => healthy_service; completion := [] |}.

Definition fresh_connection : connection :=
  {| committed := empty_tables; pending := empty_tables |}.

Definition fresh_run : run_state :=
  {| conn := fresh_connection; log := []; batches := 0 |}.

(** A record whose paragraphs hold blanks, inside and at both ends. *)
Definition spaced_record : dict :=
  [ (u "title", JStr (u "静夜思")); (u "author", JStr (u "李白"));
    (u "dynasty", JStr (u "唐"));
    (u "paragraphs", JList [JStr (u " 床前 明月光，"); JStr (u "疑是地上霜。 ")]) ].

(** The cosine distance of two vectors of norm 1: one minus their dot product. *)
Fixpoint dot (a b : embedding) : Q :=
  match a, b with
  | x :: a', y :: b' => (x * y + dot a' b')%Q
  | _, _ => 0%Q
  end.

Definition unit_distance (a b : embedding) : Q := (1 - dot a b)%Q.

(** A store with one poem and one line, whose vector is the one the service
    gives for the query. *)
Definition stored_poem : Retrieval.poem_row :=
  {| Retrieval.id := 1%Z; Retrieval.title := u "静夜思"; Retrieval.author := u "李白";
     Retrieval.dynasty := u "唐代"; Retrieval.full_content := u "床前明月光。" |}.

Definition stored_line : Retrieval.line_row :=
  {| Retrieval.poem_id := 1%Z; Retrieval.line_embedding := Some [1%Q; 0%Q] |}.

Definition the_poem : poem :=
  {| title := u "T"; author := u "A"; dynasty := u "D"; content := u "一句。二句！" |}.

End Sample.

(** ** More sample inputs *)

Module Cases.

(** three texts, the second one blank *)
Definition three_texts : list str := [u "明月"; u " "; u "故乡"].

(** a vector read off a text: its code points *)
Definition code_points (t : str) : embedding := map (fun c => inject_Z (Z.of_N c)) t.

(** A service that times out once, then answers with the items of the two
    non-blank texts in reverse order. *)
Definition late_reversed (texts : list str) (attempt : nat) : response :=
  match attempt with
  | O => OtherException
  | _ => Data (rev (imap (fun i t => (Z.of_nat i, code_points t)) texts))
  end.

(** A record whose title, author and dynasty are all longer than their
    limits: 600, 250 and 250 characters. *)
Definition long_fields_record : dict :=
  [ (u "title", JStr (replicate 600 38271));
    (u "author", JStr (replicate 250 20316));
    (u "dynasty", JStr (replicate 250 26397));
    (u "paragraphs", JList [JStr (u "测试诗句内容")]) ].

End Cases.

(** The statements that the [try] of every batch with at least one poem
    sends. *)
Definition always_sent (st : statement) : bool :=
  match st with
  | InsertDynasties | SelectDynasties | SelectAuthors
  | CreateTempPoems | InsertTempPoems | InsertPoems | Commit => true
  | OpenCursor | InsertAuthors | InsertLines | Rollback => false
  end.

(** the computation ends with an exception *)
Definition raises {A} (m : result A) : Prop := exists e, m = Raise e.

(** The value whose [strip()] gives the author of a record: the record's
    author or else the file's, and when that one is falsy the author the path
    names, else "佚名". *)
Definition author_source (lower : str -> str) (poem_data : dict) (file_path : str)
  (fallback_author : json) : json :=
  let author_str := get poem_data (u "author") fallback_author in
  if truthy author_str then author_str
  else
    let file_path_str := lower file_path in
    match first_value (fun keyword => contains keyword file_path_str)
                      path_author_map with
    | Some author_name => JStr author_name
    | None => JStr (u "佚名")
    end.


(** ** Predicates of the statements *)

(** every element is a mapping *)
Definition records (poems : list json) : Prop :=
  Forall (fun p => is_dict p = true) poems.

(** every value of a table has at most 200 characters *)
Definition short_values (table : list (str * str)) : bool :=
  forallb (fun kv => (length (snd kv) <=? 200)%nat) table.

(** every dynasty collected by the pre-scan has at most 200 characters *)
Definition bounded (author_dynasties : list (str * list str)) : Prop :=
  Forall (fun kv => Forall (fun d : str => (length d <= 200)%nat) (snd kv)) author_dynasties.

(** * Properties *)

(** ** Results and loops *)




(** ** The document schema adapter *)

Lemma records_snoc poems p : records poems -> is_dict p = true -> records (poems ++ [p]).
Proof. intros H Hp. apply Forall_app; split; [exact H | repeat constructor; exact Hp]. Qed.

Create HintDb adapter.
#[local] Hint Resolve records_snoc : adapter.
#[local] Hint Extern 1 (is_dict _ = true) => reflexivity : adapter.


Section AdapterFacts.

Variable py_repr : json -> str.
Variable lower : str -> str.











End AdapterFacts.

(** ** The embedding client *)

Local Open Scope nat_scope.

Lemma valid_indices_lookup (texts : list str) :
  forall i0 j i,
    valid_indices_from i0 texts !! j = Some i ->
    exists t, i0 <= i /\ texts !! (i - i0) = Some t /\ valid t = true
              /\ List.filter valid texts !! j = Some t.
Proof.
  induction texts as [|t0 rest IH]; intros i0 j i H; simpl in *; [discriminate|].
  destruct (valid t0) eqn:Hv.
  - destruct j as [|j]; simpl in H.
    + injection H as <-. exists t0. rewrite Nat.sub_diag. auto.
    + destruct (IH _ _ _ H) as (t & Hle & Ht & Hvt & Hf).
      exists t. replace (i - i0) with (S (i - S i0)) by lia. auto with lia.
  - destruct (IH _ _ _ H) as (t & Hle & Ht & Hvt & Hf).
    exists t. replace (i - i0) with (S (i - S i0)) by lia. auto with lia.
Qed.

Lemma valid_indices_length (texts : list str) i0 :
  length (valid_indices_from i0 texts) = length (List.filter valid texts).
Proof.
  revert i0. induction texts as [|t0 rest IH]; intros i0; simpl; [reflexivity|].
  destruct (valid t0); simpl; auto.
Qed.

Lemma valid_indices_NoDup (texts : list str) i0 : NoDup (valid_indices_from i0 texts).
Proof.
  revert i0. induction texts as [|t0 rest IH]; intros i0; simpl; [constructor|].
  destruct (valid t0); [|apply IH].
  constructor; [|apply IH].
  intros Hin. apply list_elem_of_lookup in Hin as [j Hj].
  apply valid_indices_lookup in Hj as (t & Hle & _). lia.
Qed.





Lemma rehydrate_spec (vi : list nat) :
  NoDup vi ->
  forall api i0 (results : list (option embedding)),
    i0 + length api <= length vi ->
    (forall k, k ∈ vi -> k < length results) ->
    exists r, rehydrate vi i0 api results = Ok r
      /\ length r = length results
      /\ (forall k, (forall j, j < length api -> vi !! (i0 + j) <> Some k) ->
                    r !! k = results !! k)
      /\ (forall j e, api !! j = Some e ->
                      exists k, vi !! (i0 + j) = Some k /\ r !! k = Some (Some e)).
Proof.
  intros Hnd. induction api as [|e rest IH]; intros i0 results Hlen Hbound; simpl.
  - exists results. repeat split; auto. intros j e H. discriminate.
  - simpl in Hlen.
    destruct (lookup_lt_is_Some_2 vi i0) as [oi Hoi]; [lia|]. rewrite Hoi.
    assert (Hoi_lt : oi < length results)
      by (apply Hbound, list_elem_of_lookup; eauto).
    destruct (IH (S i0) (<[oi := Some e]> results)) as (r & Hr & Hl & Hkeep & Hset).
    { lia. }
    { intros k Hk. rewrite length_insert. auto. }
    rewrite length_insert in Hl.
    exists r. repeat split; auto.
    + intros k Hk. rewrite Hkeep.
      * apply list_lookup_insert_ne. intros ->. apply (Hk 0); [lia|].
        now rewrite Nat.add_0_r.
      * intros j Hj. replace (S i0 + j) with (i0 + S j) by lia. apply Hk. lia.
    + intros [|j] e' He'; simpl in He'.
      * injection He' as <-. exists oi. rewrite Nat.add_0_r. split; [exact Hoi|].
        rewrite Hkeep; [now apply list_lookup_insert_eq|].
        intros j Hj Hdup.
        pose proof (NoDup_lookup _ _ _ _ Hnd Hoi Hdup). lia.
      * destruct (Hset _ _ He') as (k & Hk & Hrk).
        exists k. replace (i0 + S j) with (S i0 + j) by lia. auto.
Qed.


Lemma retry_loop_bad_request server n attempt :
  server attempt = HTTPError 400 ->
  retry_loop server (S n) attempt = (None, [Post]).
Proof. intros H. simpl. rewrite H. reflexivity. Qed.

Lemma retry_loop_retried server n attempt :
  retried (server attempt) = true ->
  retry_loop server (S n) attempt
  = (fst (retry_loop server n (S attempt)),
     Post :: pause attempt ++ snd (retry_loop server n (S attempt))).
Proof.
  intros H. simpl. destruct (server attempt) as [code| | |items]; simpl in *;
    try reflexivity; try discriminate.
  destruct (code =? 400)%Z; [discriminate | reflexivity].
Qed.

Lemma insert_by_index_perm x l : Permutation (insert_by_index x l) (x :: l).
Proof.
  induction l as [|y l IH]; simpl; [reflexivity|].
  destruct (fst x <=? fst y)%Z; [reflexivity|].
  rewrite IH. apply perm_swap.
Qed.

Lemma sorted_by_index_perm items : Permutation (sorted_by_index items) items.
Proof.
  induction items as [|x l IH]; simpl; [reflexivity|].
  rewrite insert_by_index_perm. now constructor.
Qed.

Lemma insert_by_index_sorted x l :
  StronglySorted (fun a b : Z * embedding => (fst a <= fst b)%Z) l ->
  StronglySorted (fun a b : Z * embedding => (fst a <= fst b)%Z) (insert_by_index x l).
Proof.
  induction l as [|y l IH]; intros Hs; simpl.
  - repeat constructor.
  - inversion Hs as [|? ? Hl Hy]; subst.
    destruct (fst x <=? fst y)%Z eqn:E.
    + apply Z.leb_le in E. constructor; [exact Hs|].
      constructor; [exact E|].
      rewrite List.Forall_forall in Hy |- *. intros z Hz. specialize (Hy z Hz). lia.
    + apply Z.leb_gt in E. constructor; [auto|].
      rewrite List.Forall_forall in Hy |- *. intros z Hz.
      apply (Permutation_in _ (insert_by_index_perm x l)) in Hz.
      destruct Hz as [<-|Hz]; [lia | auto].
Qed.

Lemma sorted_by_index_sorted items :
  StronglySorted (fun a b : Z * embedding => (fst a <= fst b)%Z) (sorted_by_index items).
Proof.
  induction items as [|x l IH]; simpl; [constructor|].
  now apply insert_by_index_sorted.
Qed.

(** Two lists in strictly ascending order of index with the same items are
    the same list. *)
Lemma ascending_unique (l1 l2 : list (Z * embedding)) :
  StronglySorted (fun a b => (fst a <= fst b)%Z) l1 ->
  StronglySorted (fun a b => (fst a < fst b)%Z) l2 ->
  Permutation l1 l2 ->
  l1 = l2.
Proof.
  revert l2. induction l1 as [|a l1 IH]; intros l2 H1 H2 Hp.
  - apply Permutation_nil in Hp. now subst.
  - destruct l2 as [|b l2]; [now apply Permutation_sym, Permutation_nil in Hp|].
    inversion H1 as [|? ? Hs1 Ha]; subst. inversion H2 as [|? ? Hs2 Hb]; subst.
    rewrite List.Forall_forall in Ha, Hb.
    assert (Hab : a = b).
    { assert (Hin_a : In a (b :: l2)) by (eapply Permutation_in; [exact Hp | now left]).
      assert (Hin_b : In b (a :: l1))
        by (eapply Permutation_in; [apply Permutation_sym, Hp | now left]).
      destruct Hin_a as [->|Hin_a]; [reflexivity|].
      destruct Hin_b as [->|Hin_b]; [reflexivity|].
      specialize (Ha _ Hin_b). specialize (Hb _ Hin_a). lia. }
    subst b. f_equal. apply IH; auto. eapply Permutation_cons_inv; eauto.
Qed.

(** the items a well-behaved service returns for [texts], in input order *)
Lemma indexed_ascending (f : str -> embedding) (texts : list str) (i0 : nat) :
  StronglySorted (fun a b : Z * embedding => (fst a < fst b)%Z)
    (imap (fun i t => (Z.of_nat (i0 + i), f t)) texts).
Proof.
  revert i0. induction texts as [|t rest IH]; intros i0; simpl; [constructor|].
  constructor.
  - specialize (IH (S i0)). erewrite imap_ext; [exact IH|].
    intros i x _. simpl. f_equal. lia.
  - rewrite List.Forall_forall. intros z Hz.
    apply list_elem_of_In, list_elem_of_lookup in Hz as [j Hj].
    rewrite list_lookup_imap in Hj.
    destruct (rest !! j); simpl in Hj; [|discriminate].
    injection Hj as <-. simpl. lia.
Qed.

Lemma valid_indices_find (texts : list str) :
  forall i0 i t,
    texts !! i = Some t -> valid t = true ->
    exists j, valid_indices_from i0 texts !! j = Some (i0 + i)
              /\ List.filter valid texts !! j = Some t.
Proof.
  induction texts as [|t0 rest IH]; intros i0 i t Hi Hv; [discriminate|].
  simpl. destruct i as [|i]; simpl in Hi.
  - injection Hi as ->. rewrite Hv. exists 0. rewrite Nat.add_0_r. auto.
  - destruct (IH (S i0) i t Hi Hv) as (j & Hj & Hf).
    replace (i0 + S i) with (S i0 + i) by lia.
    destruct (valid t0); [exists (S j) | exists j]; auto.
Qed.

(** Written back at the indices of the non-blank texts, the vectors of the
    non-blank texts give one entry per text. *)
Lemma rehydrate_restores (f : str -> embedding) (texts : list str) :
  rehydrate (valid_indices_from 0 texts) 0 (map f (List.filter valid texts))
    (replicate (length texts) None)
  = Ok (map (fun t => if valid t then Some (f t) else None) texts).
Proof.
  destruct (rehydrate_spec (valid_indices_from 0 texts) (valid_indices_NoDup texts 0)
              (map f (List.filter valid texts)) 0 (replicate (length texts) None))
    as (r & -> & Hl & Hkeep & Hset).
  { rewrite length_map, valid_indices_length. lia. }
  { intros k Hk. apply list_elem_of_lookup in Hk as [j Hj].
    apply valid_indices_lookup in Hj as (t & _ & Ht & _).
    rewrite Nat.sub_0_r in Ht. rewrite length_replicate. eapply lookup_lt_Some; eauto. }
  f_equal. apply list_eq. intros i. rewrite list_lookup_fmap.
  destruct (texts !! i) as [t|] eqn:Hi; simpl.
  - destruct (valid t) eqn:Hv.
    + destruct (valid_indices_find texts 0 i t Hi Hv) as (j & Hj & Hf).
      destruct (Hset j (f t)) as (k & Hk & Hrk).
      { rewrite list_lookup_fmap, Hf. reflexivity. }
      simpl in Hk, Hj. congruence.
    + rewrite Hkeep.
      * apply lookup_replicate_2. eapply lookup_lt_Some; eauto.
      * intros j _ Hj. simpl in Hj.
        apply valid_indices_lookup in Hj as (t' & _ & Ht' & Hv' & _).
        rewrite Nat.sub_0_r in Ht'. congruence.
  - apply lookup_ge_None. rewrite Hl, length_replicate. now apply lookup_ge_None.
Qed.

Lemma retry_loop_first_data server n attempt k items :
  k < n ->
  (forall a, a < k -> retried (server (attempt + a)) = true) ->
  server (attempt + k) = Data items ->
  fst (retry_loop server n attempt) = Some (map snd (sorted_by_index items)).
Proof.
  revert attempt k. induction n as [|n IH]; intros attempt k Hk Hretried Hdata; [lia|].
  destruct k as [|k].
  - rewrite Nat.add_0_r in Hdata. simpl. rewrite Hdata. reflexivity.
  - rewrite retry_loop_retried.
    + cbn [fst]. apply (IH (S attempt) k); [lia | |].
      * intros a Ha. replace (S attempt + a) with (attempt + S a) by lia.
        apply Hretried. lia.
      * replace (S attempt + k) with (attempt + S k) by lia. exact Hdata.
    + specialize (Hretried 0). rewrite Nat.add_0_r in Hretried. apply Hretried. lia.
Qed.







(** C6, as the code has it. Only a response with status 400 ends the retry
    loop at once: one request, no sleep, every result absent. Any other
    failure (an HTTP error with another status, 403 and 404 among them, any
    other exception, a body without data) is retried: three requests, with
    sleeps of 2 and 4 seconds between them, then every result absent. *)
Theorem only_bad_request_short_circuits
  (service : list str -> nat -> response) (texts : list str) :
  List.filter valid texts <> [] ->
  (service (List.filter valid texts) 0 = HTTPError 400 ->
   get_batch_embeddings service texts
   = (Ok (replicate (length texts) None), [Post]))
  /\ ((forall attempt, attempt < max_retries ->
                       retried (service (List.filter valid texts) attempt) = true) ->
      get_batch_embeddings service texts
      = (Ok (replicate (length texts) None),
         [Post; Sleep 2; Post; Sleep 4; Post])).
Proof.
  intros Hvalid.
  assert (Hne : nonempty texts = true).
  { destruct texts; [now elim Hvalid | reflexivity]. }
  assert (Hnv : nonempty (List.filter valid texts) = true).
  { destruct (List.filter valid texts); [now elim Hvalid | reflexivity]. }
  unfold get_batch_embeddings. rewrite Hne, Hnv. cbn [negb].
  split.
  - intros H. unfold max_retries. rewrite (retry_loop_bad_request _ _ _ H). reflexivity.
  - intros H. unfold max_retries.
    rewrite !retry_loop_retried by (apply H; unfold max_retries; lia).
    reflexivity.
Qed.

Lemma only_bad_request_short_circuits_witness :
  List.filter valid [u "明月"] <> []
  /\ get_batch_embeddings (fun _ _ => HTTPError 404) [u "明月"]
     = (Ok [None], [Post; Sleep 2; Post; Sleep 4; Post]).
Proof.
  assert (H : List.filter valid [u "明月"] <> []) by (vm_compute; discriminate).
  split; [exact H|].
  apply (only_bad_request_short_circuits (fun _ _ => HTTPError 404) [u "明月"] H).
  intros attempt _. reflexivity.
Defined.

(** C6, as stated, fails: a response with status 403 does not end the loop;
    the request is made three times. *)
Lemma forbidden_is_retried :
  snd (get_batch_embeddings (fun _ _ => HTTPError 403) [u "明月"])
  = [Post; Sleep 2; Post; Sleep 4; Post].
Proof. reflexivity. Qed.

(** ** The concurrent orchestrator *)

Lemma collect_returned (results : list (list (option embedding))) :
  forall order results_in_order,
    length results_in_order = length results ->
    exists r,
      collect order (map Ok results) results_in_order = Ok r
      /\ length r = length results
      /\ (forall i x, results !! i = Some x ->
            (i ∈ order -> r !! i = Some (Some x))
            /\ (i ∉ order -> r !! i = results_in_order !! i)).
Proof.
  induction order as [|index rest IH]; intros rio Hlen; simpl.
  - exists rio. repeat split; auto. intros Hin. inversion Hin.
  - rewrite list_lookup_fmap.
    destruct (results !! index) as [r0|] eqn:Hindex; simpl.
    + destruct (IH (<[index := Some r0]> rio)) as (r & Hr & Hl & Hi).
      { now rewrite length_insert. }
      exists r. repeat split; auto.
      * intros Hin. destruct (decide (i ∈ rest)) as [Hrest|Hrest].
        { now apply (Hi i x). }
        apply elem_of_cons in Hin as [->|Hin]; [|contradiction].
        destruct (Hi index x H) as [_ Hk]. rewrite (Hk Hrest).
        rewrite list_lookup_insert_eq; [congruence|].
        rewrite Hlen. eapply lookup_lt_Some; eauto.
      * intros Hnot. apply not_elem_of_cons in Hnot as [Hne Hrest].
        destruct (Hi i x H) as [_ Hk]. rewrite (Hk Hrest).
        now apply list_lookup_insert_ne.
    + destruct (IH rio Hlen) as (r & Hr & Hl & Hi).
      exists r. repeat split; auto.
      * intros Hin. apply elem_of_cons in Hin as [->|Hin]; [congruence|].
        now apply (Hi i x).
      * intros Hnot. apply not_elem_of_cons in Hnot as [_ Hrest]. now apply (Hi i x).
Qed.

Lemma merge_returned (results : list (list (option embedding))) :
  merge (map Some results) = concat results.
Proof.
  unfold merge. induction results as [|r l IH]; simpl; [reflexivity|].
  rewrite IH. destruct r; reflexivity.
Qed.

(** C8. Whatever the order in which the sub-batch workers complete, the merged
    list is the concatenation of the workers' results in submission order. *)
Theorem gather_in_submission_order
  (results : list (list (option embedding))) (completion : list nat) :
  Permutation completion (seq 0 (length results)) ->
  gather completion (map Ok results) = Ok (concat results).
Proof.
  intros Hperm. unfold gather. rewrite length_map.
  destruct (collect_returned results completion (replicate (length results) None))
    as (r & -> & Hl & Hi).
  { apply length_replicate. }
  simpl. f_equal. rewrite <- merge_returned. f_equal.
  apply list_eq. intros i. rewrite list_lookup_fmap.
  destruct (results !! i) as [x|] eqn:Hx; simpl.
  - apply (Hi i x Hx). rewrite Hperm. apply elem_of_seq.
    apply lookup_lt_Some in Hx. lia.
  - apply lookup_ge_None. rewrite Hl. now apply lookup_ge_None.
Qed.

Lemma gather_in_submission_order_witness :
  Permutation [2; 0; 1] (seq 0 (length [[Some [1%Q]]; [None; Some [2%Q]]; [Some [3%Q]]]))
  /\ gather [2; 0; 1] (map Ok [[Some [1%Q]]; [None; Some [2%Q]]; [Some [3%Q]]])
     = Ok [Some [1%Q]; None; Some [2%Q]; Some [3%Q]].
Proof.
  assert (H : Permutation [2; 0; 1]
                (seq 0 (length [[Some [1%Q]]; [None; Some [2%Q]]; [Some [3%Q]]]))).
  { simpl. apply Permutation_sym. etransitivity; [apply perm_skip, perm_swap|].
    etransitivity; [apply perm_swap|]. apply Permutation_refl. }
  split; [exact H|].
  apply (gather_in_submission_order
           [[Some [1%Q]]; [None; Some [2%Q]]; [Some [3%Q]]] [2; 0; 1] H).
Defined.

(** ** Cleaning one record: [process_poem_data] *)

Lemma first_value_short test table v :
  short_values table = true -> first_value test table = Some v -> length v <= 200.
Proof.
  induction table as [|[k w] rest IH]; simpl; [discriminate|].
  intros H Hv. apply andb_prop in H as [Hw Hrest].
  destruct (test k); [|auto].
  injection Hv as <-. now apply Nat.leb_le.
Qed.

Lemma lookup_str_in m k v : lookup_str m k = Some v -> exists k', (k', v) ∈ m.
Proof.
  induction m as [|[k' w] rest IH]; simpl; [discriminate|].
  destruct (str_eqb k' k).
  - intros [= <-]. exists k'. left.
  - intros H. destruct (IH H) as [k'' Hk]. exists k''. now right.
Qed.

Lemma most_common1_in (l : list str) d : most_common1 l = Some d -> d ∈ l.
Proof.
  unfold most_common1.
  assert (Hfold : forall (seen : list str) best,
             (forall x, x ∈ seen -> x ∈ l) ->
             (forall b, best = Some b -> b ∈ l) ->
             fold_left
               (fun best x =>
                  match best with
                  | None => Some x
                  | Some b => if count_of b l <? count_of x l then Some x else best
                  end) seen best = Some d ->
             d ∈ l).
  { induction seen as [|x seen IH]; intros best Hseen Hbest; simpl.
    - apply Hbest.
    - apply IH.
      + intros y Hy. apply Hseen. now right.
      + assert (Hx : x ∈ l) by (apply Hseen; left).
        destruct best as [b|]; [|now intros ? [= <-]].
        destruct (count_of b l <? count_of x l); [now intros ? [= <-] | auto]. }
  apply Hfold; [auto | discriminate].
Qed.

Lemma append_to_bounded k v m :
  length v <= 200 -> bounded m -> bounded (append_to k v m).
Proof.
  intros Hv. unfold bounded. induction m as [|[k' vs] rest IH]; simpl; intros H.
  - constructor; [|constructor]. simpl. constructor; [exact Hv | constructor].
  - inversion H as [|? ? Hvs Hrest]; subst. simpl in Hvs.
    destruct (str_eqb k' k); constructor; simpl; auto.
    apply Forall_app. split; [exact Hvs|]. constructor; [exact Hv | constructor].
Qed.

Lemma take_bound {A} n (l : list A) : length (take n l) <= n.
Proof. rewrite length_take. lia. Qed.

Section CleaningFacts.

Variable convert : str -> str.
Variable py_repr : json -> str.
Variable lower : str -> str.

Lemma scan_poem_bounded ad p : bounded ad -> bounded (scan_poem convert py_repr ad p).
Proof.
  intros H. destruct p; simpl; auto.
  destruct (truthy _ && truthy _); auto.
  apply append_to_bounded; [apply take_bound | exact H].
Qed.

Lemma scan_file_bounded ad f : bounded ad -> bounded (scan_file convert py_repr lower ad f).
Proof.
  intros H. unfold scan_file.
  destruct (data <- f.2 ;; _extract_poems_from_data py_repr lower data) as [[poems_list fb]|];
    [|exact H].
  revert ad H. induction poems_list as [|p rest IH]; intros ad H; simpl; [exact H|].
  apply IH, scan_poem_bounded, H.
Qed.

Lemma scan_files_bounded (files : corpus) ad :
  bounded ad -> bounded (fold_left (scan_file convert py_repr lower) files ad).
Proof.
  revert ad. induction files as [|f rest IH]; intros ad Had; simpl; [exact Had|].
  apply IH, scan_file_bounded, Had.
Qed.

(** The dynasties of the author table are truncated ones. *)
Lemma author_dynasty_map_short (files : corpus) a d :
  lookup_str (_create_author_dynasty_map convert py_repr lower files) a = Some d ->
  length d <= 200.
Proof.
  intros H. apply lookup_str_in in H as [k Hk].
  unfold _create_author_dynasty_map in Hk.
  apply list_elem_of_omap in Hk as ([k' ds] & Hin & Hsome). simpl in Hsome.
  destruct (nonempty ds); [|discriminate].
  destruct (most_common1 ds) as [d'|] eqn:Hmc; [|discriminate].
  simpl in Hsome. injection Hsome as <- <-.
  assert (Hb : bounded (fold_left (scan_file convert py_repr lower) files []))
    by (apply scan_files_bounded; constructor).
  unfold bounded in Hb. rewrite Forall_forall in Hb.
  specialize (Hb _ Hin). simpl in Hb. rewrite Forall_forall in Hb.
  apply Hb, most_common1_in, Hmc.
Qed.

Lemma infer_dynasty_short (files : corpus) a file_path :
  length (_infer_dynasty lower (_create_author_dynasty_map convert py_repr lower files)
            a file_path) <= 200.
Proof.
  unfold _infer_dynasty.
  destruct (lookup_str _ a) as [d|] eqn:Hd; [eapply author_dynasty_map_short; eauto|].
  destruct (first_value _ classical_texts) as [d|] eqn:Hc.
  { eapply first_value_short; [|exact Hc]. reflexivity. }
  destruct (first_value _ path_keyword_map) as [d|] eqn:Hp.
  { eapply first_value_short; [|exact Hp]. reflexivity. }
  vm_compute. lia.
Qed.

Lemma strip_method_returns (v : json) (stripped : str) :
  strip_method v = Ok stripped -> exists s, v = JStr s /\ stripped = strip s.
Proof. destruct v; try discriminate. intros [= <-]. eauto. Qed.

(** C10. Length never rejects a record: whenever the author resolves to a
    string and the paragraphs join to a text that converts to a non-empty
    one, the record is accepted, with the cleaned title cut at 500
    characters, the cleaned author cut at 200, and the cleaned dynasty cut at
    200 or, when that is empty, the inferred one. Hence every accepted record
    has a title of at most 500 characters and an author and a dynasty of at
    most 200 each, and they are these cut values. *)
Theorem process_poem_data_lengths (files : corpus) (poem_data : dict)
  (file_path : str) (fallback_author : json) :
  (forall s joined,
      author_source lower poem_data file_path fallback_author = JStr s ->
      join_empty (get poem_data (u "paragraphs") (JList [])) = Ok joined ->
      convert joined <> [] ->
      process_poem_data convert py_repr lower
        (_create_author_dynasty_map convert py_repr lower files)
        poem_data file_path fallback_author
      = Some {| title :=
                  take 500 (convert (strip (py_str py_repr
                    (get poem_data (u "title") (JStr (u "无题"))))));
                author := take 200 (convert (strip s));
                dynasty :=
                  if nonempty (take 200 (convert (strip (py_str py_repr
                       (get poem_data (u "dynasty") (JStr []))))))
                  then take 200 (convert (strip (py_str py_repr
                         (get poem_data (u "dynasty") (JStr [])))))
                  else _infer_dynasty lower
                         (_create_author_dynasty_map convert py_repr lower files)
                         (take 200 (convert (strip s))) file_path;
                content := convert joined |})
  /\ (forall p,
        process_poem_data convert py_repr lower
          (_create_author_dynasty_map convert py_repr lower files)
          poem_data file_path fallback_author = Some p ->
        length (title p) <= 500 /\ length (author p) <= 200 /\ length (dynasty p) <= 200
        /\ title p = take 500 (convert (strip (py_str py_repr
                                 (get poem_data (u "title") (JStr (u "无题"))))))
        /\ (exists s,
              author_source lower poem_data file_path fallback_author = JStr s
              /\ author p = take 200 (convert (strip s)))
        /\ dynasty p
           = (if nonempty (take 200 (convert (strip (py_str py_repr
                   (get poem_data (u "dynasty") (JStr []))))))
              then take 200 (convert (strip (py_str py_repr
                     (get poem_data (u "dynasty") (JStr [])))))
              else _infer_dynasty lower
                     (_create_author_dynasty_map convert py_repr lower files)
                     (author p) file_path)).
Proof.
  split.
  - intros s joined Hs Hj Hne.
    unfold process_poem_data, process_poem_try. cbv zeta.
    unfold author_source in Hs. cbv zeta in Hs. rewrite Hs, Hj.
    cbn [strip_method bind].
    destruct (convert joined) as [|c cs] eqn:Hc; [now elim Hne|].
    cbn [nonempty negb].
    destruct (nonempty (take 200 _)); reflexivity.
  - intros p. unfold process_poem_data, process_poem_try. cbv zeta.
    fold (author_source lower poem_data file_path fallback_author).
    destruct (strip_method (author_source lower poem_data file_path fallback_author))
      as [stripped|] eqn:Hs; cbn [bind]; [|discriminate].
    apply strip_method_returns in Hs as (s & Hs & ->).
    destruct (join_empty _) as [joined|]; cbn [bind]; [|discriminate].
    destruct (negb (nonempty (convert joined))); [discriminate|].
    intros [= <-]. cbn [title author dynasty].
    split; [apply take_bound|]. split; [apply take_bound|]. split.
    { destruct (negb (nonempty _)); [apply infer_dynasty_short | apply take_bound]. }
    split; [reflexivity|]. split; [eauto|].
    destruct (nonempty (take 200 _)); reflexivity.
Qed.

Lemma join_empty_strings (ps : list str) : join_empty (JList (map JStr ps)) = Ok (concat ps).
Proof.
  simpl.
  assert (H : forall acc,
             for_each (map JStr ps)
               (fun x acc => match x with JStr s => Ok (acc ++ s) | _ => Raise TypeError end)
               acc = Ok (acc ++ concat ps)).
  { induction ps as [|s rest IH]; intros acc; simpl.
    - now rewrite app_nil_r.
    - rewrite IH. now rewrite <- app_assoc. }
  apply (H []).
Qed.

(** C9, as the code has it. The content of an accepted record is the converter
    applied to the plain concatenation of its paragraphs: nothing strips
    whitespace from it. *)
Theorem content_is_converted_join (author_dynasty_map : list (str * str))
  (poem_data : dict) (file_path : str) (fallback_author : json) (p : poem) :
  process_poem_data convert py_repr lower author_dynasty_map
    poem_data file_path fallback_author = Some p ->
  (exists joined,
      join_empty (get poem_data (u "paragraphs") (JList [])) = Ok joined
      /\ content p = convert joined)
  /\ (forall ps, get poem_data (u "paragraphs") (JList []) = JList (map JStr ps) ->
                 content p = convert (concat ps)).
Proof.
  unfold process_poem_data, process_poem_try.
  destruct (strip_method _) as [stripped|]; cbn [bind]; [|discriminate].
  destruct (join_empty _) as [joined|] eqn:Hj; cbn [bind]; [|discriminate].
  destruct (negb (nonempty (convert joined))); [discriminate|].
  intros [= <-]. cbn [content]. split; [eauto|].
  intros ps Hps. rewrite Hps, join_empty_strings in Hj. now injection Hj as <-.
Qed.

End CleaningFacts.

Lemma process_poem_data_lengths_witness :
  process_poem_data Sample.simplified Sample.any_repr Sample.ascii_lower
    (_create_author_dynasty_map Sample.simplified Sample.any_repr Sample.ascii_lower
       Sample.one_file_corpus)
    Cases.long_fields_record Sample.file_path JNull
  = Some {| title := replicate 500 38271%N; author := replicate 200 20316%N;
            dynasty := replicate 200 26397%N; content := u "测试诗句内容" |}.
Proof.
  assert (Hs : author_source Sample.ascii_lower Cases.long_fields_record
                 Sample.file_path JNull = JStr (replicate 250 20316%N))
    by (vm_compute; reflexivity).
  assert (Hj : join_empty (get Cases.long_fields_record (u "paragraphs") (JList []))
               = Ok (u "测试诗句内容"))
    by (vm_compute; reflexivity).
  assert (Hne : Sample.simplified (u "测试诗句内容") <> [])
    by (vm_compute; discriminate).
  rewrite (proj1 (process_poem_data_lengths Sample.simplified Sample.any_repr
                    Sample.ascii_lower Sample.one_file_corpus Cases.long_fields_record
                    Sample.file_path JNull) _ _ Hs Hj Hne).
  vm_compute. reflexivity.
Defined.

Lemma content_is_converted_join_witness :
  process_poem_data Sample.simplified Sample.any_repr Sample.ascii_lower []
    Sample.spaced_record Sample.file_path JNull
  = Some {| title := u "静夜思"; author := u "李白"; dynasty := u "唐";
            content := u " 床前 明月光，疑是地上霜。 " |}
  /\ u " 床前 明月光，疑是地上霜。 "
     = Sample.simplified (concat [u " 床前 明月光，"; u "疑是地上霜。 "]).
Proof.
  assert (H : process_poem_data Sample.simplified Sample.any_repr Sample.ascii_lower []
                Sample.spaced_record Sample.file_path JNull
              = Some {| title := u "静夜思"; author := u "李白"; dynasty := u "唐";
                        content := u " 床前 明月光，疑是地上霜。 " |})
    by (vm_compute; reflexivity).
  assert (Hp : get Sample.spaced_record (u "paragraphs") (JList [])
               = JList (map JStr [u " 床前 明月光，"; u "疑是地上霜。 "]))
    by (vm_compute; reflexivity).
  split; [exact H|].
  rewrite <- (proj2 (content_is_converted_join Sample.simplified Sample.any_repr
                       Sample.ascii_lower [] Sample.spaced_record Sample.file_path JNull
                       _ H) _ Hp).
  vm_compute. reflexivity.
Defined.

(** C9, as stated, fails: the blanks of the paragraphs are still in the content
    of the accepted record, at its ends and inside. *)
Lemma whitespace_survives_in_content :
  exists p,
    process_poem_data Sample.simplified Sample.any_repr Sample.ascii_lower []
      Sample.spaced_record Sample.file_path JNull = Some p
    /\ content p = u " 床前 明月光，疑是地上霜。 "
    /\ content p <> strip (content p)
    /\ content p <> List.filter (fun c => negb (is_space c)) (content p).
Proof.
  eexists. split; [vm_compute; reflexivity|].
  repeat split; vm_compute; discriminate.
Qed.

(** ** The transactional loader and the run *)

Section LoaderFacts.

Variable convert : str -> str.
Variable py_repr : json -> str.
Variable lower : str -> str.
Variable is_decimal : N -> bool.

(** A batch either commits what its transaction built or leaves the
    connection as the last commit had it; a failure inside the [try] is not
    seen by the caller when the rollback of the handler is carried out. *)
Lemma process_and_insert_batch_outcome (env : batch_env) (poem_batch : list poem)
  (c : connection) :
  poem_batch <> [] ->
  db_fails env OpenCursor = false ->
  db_fails env Rollback = false ->
  (exists t, batch_try is_decimal env poem_batch (pending c) = Ok t
             /\ process_and_insert_batch is_decimal env poem_batch c
                = (Ok tt, {| committed := t; pending := t |}))
  \/ (exists e, batch_try is_decimal env poem_batch (pending c) = Raise e
                /\ process_and_insert_batch is_decimal env poem_batch c
                   = (Ok tt, rollback c)).
Proof.
  intros Hne Hcur Hroll. unfold process_and_insert_batch, execute.
  destruct poem_batch; [now elim Hne|]. cbn [nonempty negb]. rewrite Hcur, Hroll.
  destruct (batch_try _ _ _ _) as [t|e]; [left | right]; eauto.
Qed.

Lemma extract_sample_document :
  _extract_poems_from_data py_repr lower (JDict Sample.document)
  = Ok ([JDict Sample.document], JStr (u "A")).
Proof. reflexivity. Qed.

Lemma split_sentences_sample : split_sentences is_decimal (u "一句。二句！") = [].
Proof. reflexivity. Qed.

Hypothesis convert_title : convert (u "T") = u "T".
Hypothesis convert_author : convert (u "A") = u "A".
Hypothesis convert_dynasty : convert (u "D") = u "D".
Hypothesis convert_content : convert (u "一句。二句！") = u "一句。二句！".

Lemma process_sample_document (author_dynasty_map : list (str * str)) :
  process_poem_data convert py_repr lower author_dynasty_map
    Sample.document Sample.file_path (JStr (u "A"))
  = Some Sample.the_poem.
Proof.
  unfold process_poem_data, process_poem_try.
  change (get Sample.document (u "title") (JStr (u "无题"))) with (JStr (u "T")).
  change (get Sample.document (u "author") (JStr (u "A"))) with (JStr (u "A")).
  change (get Sample.document (u "dynasty") (JStr [])) with (JStr (u "D")).
  change (get Sample.document (u "paragraphs") (JList []))
    with (JList [JStr (u "一句。"); JStr (u "二句！")]).
  change (truthy (JStr (u "A"))) with true. cbn iota.
  change (strip_method (JStr (u "A"))) with (Ok (u "A") : result str).
  change (join_empty (JList [JStr (u "一句。"); JStr (u "二句！")]))
    with (Ok (u "一句。二句！") : result str).
  cbn [bind py_str].
  change (strip (u "T")) with (u "T"). change (strip (u "D")) with (u "D").
  rewrite convert_title, convert_author, convert_dynasty, convert_content.
  reflexivity.
Qed.

Lemma batch_try_sample (env : batch_env) :
  (forall st, db_fails env st = false) ->
  batch_try is_decimal env [Sample.the_poem] empty_tables
  = Ok {| dynasties := [(1%Z, u "D")];
          authors := [(1%Z, u "A", 1%Z)];
          poems := [(1%Z, u "T", Some 1%Z, u "一句。二句！")];
          lines := [] |}.
Proof.
  intros Hdb. unfold batch_try, execute. rewrite !Hdb.
  cbn [map content Sample.the_poem]. rewrite split_sentences_sample.
  reflexivity.
Qed.

(** C3, as the code has it. Importing the one-file corpus of the scenario,
    with a converter that leaves its four texts as they are and a database
    that refuses nothing, commits one dynasty "D", one author ("A", "D"), one
    poem with the content "一句。二句！", and no line, whatever the embedding
    service answers: both fragments have fewer than four characters and are
    dropped before any embedding is requested. The file is then logged. *)
Theorem one_document_scenario (envs : nat -> batch_env) :
  (forall st, db_fails (envs 0) st = false) ->
  committed (conn (run_import convert py_repr lower is_decimal
                     Sample.one_file_corpus envs Sample.fresh_run))
  = {| dynasties := [(1%Z, u "D")];
       authors := [(1%Z, u "A", 1%Z)];
       poems := [(1%Z, u "T", Some 1%Z, u "一句。二句！")];
       lines := [] |}
  /\ log (run_import convert py_repr lower is_decimal
            Sample.one_file_corpus envs Sample.fresh_run)
     = [Sample.file_path].
Proof.
  intros Hdb. unfold run_import, run_import_call.
  change (List.filter _ Sample.one_file_corpus) with Sample.one_file_corpus.
  unfold Sample.one_file_corpus. cbn [import_files].
  unfold import_file, import_file_try. cbn [snd fst bind].
  rewrite extract_sample_document. cbn [nonempty negb poems_loop].
  rewrite process_sample_document.
  change (db_batch_size <=? length ([] ++ [Sample.the_poem])) with false.
  cbn iota. cbn [fst snd app nonempty].
  unfold insert_batch, process_and_insert_batch, execute.
  cbn [nonempty negb batches conn pending Sample.fresh_run Sample.fresh_connection].
  rewrite Hdb, (batch_try_sample _ Hdb).
  split; reflexivity.
Qed.

End LoaderFacts.

Lemma one_document_scenario_witness :
  (forall st, db_fails Sample.embedding_down st = false)
  /\ lines (committed (conn (run_import Sample.simplified Sample.any_repr
                               Sample.ascii_lower Sample.ascii_digit
                               Sample.one_file_corpus (fun _ => Sample.embedding_down)
                               Sample.fresh_run)))
     = [].
Proof.
  assert (H : forall st, db_fails Sample.embedding_down st = false) by reflexivity.
  split; [exact H|].
  exact (f_equal lines
           (proj1 (one_document_scenario Sample.simplified Sample.any_repr
                     Sample.ascii_lower Sample.ascii_digit
                     eq_refl eq_refl eq_refl eq_refl
                     (fun _ => Sample.embedding_down) H))).
Defined.

(** C3, as stated, fails: with the embedding service answering every request,
    the scenario commits its poem and no line, where the claim has two. *)
Lemma scenario_stores_no_line :
  poems (committed (conn (run_import Sample.simplified Sample.any_repr
                            Sample.ascii_lower Sample.ascii_digit
                            Sample.one_file_corpus (fun _ => Sample.healthy)
                            Sample.fresh_run)))
  = [(1%Z, u "T", Some 1%Z, u "一句。二句！")]
  /\ lines (committed (conn (run_import Sample.simplified Sample.any_repr
                               Sample.ascii_lower Sample.ascii_digit
                               Sample.one_file_corpus (fun _ => Sample.healthy)
                               Sample.fresh_run)))
     = []
  /\ split_sentences Sample.ascii_digit (u "一句。二句！") = [].
Proof. repeat split; vm_compute; reflexivity. Qed.

(** C2, on the code. The database refuses the insertion of the poems of a
    batch: the batch is rolled back, nothing of it is committed, and the call
    returns to its caller as a call that succeeded; no exception reaches the
    caller. *)
Theorem refused_batch_returns_normally :
  batch_try Sample.ascii_digit Sample.poem_insert_refused [Sample.the_poem]
    (pending Sample.fresh_connection) = Raise DatabaseError
  /\ process_and_insert_batch Sample.ascii_digit Sample.poem_insert_refused
       [Sample.the_poem] Sample.fresh_connection
     = (Ok tt, rollback Sample.fresh_connection)
  /\ committed (rollback Sample.fresh_connection) = empty_tables.
Proof. repeat split; vm_compute; reflexivity. Qed.

(** C1, on the code. The only batch of the only file of the corpus fails and
    is rolled back: nothing is committed, and the file is written to the
    checkpoint log all the same, so that the next run, which reads the log,
    has no file left to import. *)
Theorem failed_file_is_checkpointed :
  committed (conn (run_import Sample.simplified Sample.any_repr Sample.ascii_lower
                     Sample.ascii_digit Sample.one_file_corpus
                     (fun _ => Sample.poem_insert_refused) Sample.fresh_run))
  = empty_tables
  /\ log (run_import Sample.simplified Sample.any_repr Sample.ascii_lower
            Sample.ascii_digit Sample.one_file_corpus
            (fun _ => Sample.poem_insert_refused) Sample.fresh_run)
     = [Sample.file_path]
  /\ run_import Sample.simplified Sample.any_repr Sample.ascii_lower
       Sample.ascii_digit Sample.one_file_corpus (fun _ => Sample.healthy)
       (run_import Sample.simplified Sample.any_repr Sample.ascii_lower
          Sample.ascii_digit Sample.one_file_corpus
          (fun _ => Sample.poem_insert_refused) Sample.fresh_run)
     = run_import Sample.simplified Sample.any_repr Sample.ascii_lower
         Sample.ascii_digit Sample.one_file_corpus
         (fun _ => Sample.poem_insert_refused) Sample.fresh_run.
Proof. repeat split; vm_compute; reflexivity. Qed.

(** The sibling path: when the cursor cannot be opened the exception does
    reach the loop over the files, which rolls back and does not log the file. *)
Example unopened_cursor_is_not_checkpointed :
  log (run_import Sample.simplified Sample.any_repr Sample.ascii_lower
         Sample.ascii_digit Sample.one_file_corpus
         (fun _ => {| db_fails := fun st => match st with OpenCursor => true | _ => false end;
                      service := fun _ => Sample.healthy_service;
                      completion := [] |})
         Sample.fresh_run)
  = [].
Proof. vm_compute. reflexivity. Qed.

(** When the rollback of the handlers raises as well, as on a lost
    connection, the exception leaves [run_import]: the run ends there, and
    the file is not logged. *)
Example lost_connection_ends_the_run :
  fst (run_import_call Sample.simplified Sample.any_repr Sample.ascii_lower
         Sample.ascii_digit Sample.one_file_corpus
         (fun _ => {| db_fails := fun st => match st with
                                            | InsertPoems | Rollback => true
                                            | _ => false
                                            end;
                      service := fun _ => Sample.healthy_service;
                      completion := [] |})
         Sample.fresh_run)
  = Raise DatabaseError
  /\ log (run_import Sample.simplified Sample.any_repr Sample.ascii_lower
            Sample.ascii_digit Sample.one_file_corpus
            (fun _ => {| db_fails := fun st => match st with
                                               | InsertPoems | Rollback => true
                                               | _ => false
                                               end;
                         service := fun _ => Sample.healthy_service;
                         completion := [] |})
            Sample.fresh_run)
     = [].
Proof. split; vm_compute; reflexivity. Qed.

(** ** Semantic retrieval *)

Section RetrievalFacts.

Import Retrieval.

Variable cosine_distance : embedding -> embedding -> Q.
Variable get_embedding : str -> option embedding.

(** A row at distance zero is presented with the score 0. *)
Lemma present_zero (p : poem_row) (d : Q) : (d == 0)%Q -> (score (present (p, d)) == 0)%Q.
Proof.
  intros H. unfold present, similarity_score. cbn [snd score].
  apply Qeq_bool_iff in H. rewrite H. reflexivity.
Qed.

(** Any other row is presented with one minus its distance, rounded. *)
Lemma present_nonzero (p : poem_row) (d : Q) :
  ~ (d == 0)%Q -> score (present (p, d)) = round4 (1 - d).
Proof.
  intros H. unfold present, similarity_score. cbn [snd score].
  destruct (Qeq_bool d 0) eqn:E; [|reflexivity].
  apply Qeq_bool_iff in E. contradiction.
Qed.

Lemma insert_by_distance_sorted x l :
  StronglySorted (fun a b : poem_row * Q => (snd a <= snd b)%Q) l ->
  StronglySorted (fun a b : poem_row * Q => (snd a <= snd b)%Q) (insert_by_distance x l)
  /\ forall y, In y (insert_by_distance x l) -> y = x \/ In y l.
Proof.
  induction l as [|y l IH]; intros Hs; simpl.
  - split; [repeat constructor | intros z [<-|[]]; auto].
  - inversion Hs as [|? ? Hl Hy]; subst.
    destruct (Qle_bool (snd x) (snd y)) eqn:E.
    + split; [|intros z [<-|Hz]; auto].
      apply Qle_bool_iff in E. constructor; [exact Hs|].
      constructor; [exact E|].
      rewrite List.Forall_forall in Hy |- *. intros z Hz.
      eapply Qle_trans; [exact E | apply Hy, Hz].
    + destruct (IH Hl) as [Hsorted Hin].
      assert (Hyx : (snd y <= snd x)%Q).
      { destruct (Qlt_le_dec (snd y) (snd x)) as [Hlt|Hle].
        - now apply Qlt_le_weak.
        - apply Qle_bool_iff in Hle. congruence. }
      split.
      * constructor; [exact Hsorted|].
        rewrite List.Forall_forall in Hy |- *. intros z Hz.
        destruct (Hin z Hz) as [->|Hz']; [exact Hyx | apply Hy, Hz'].
      * intros z [<-|Hz]; [right; now left|].
        destruct (Hin z Hz); [now left | right; now right].
Qed.

(** The rows come out of [ORDER BY distance ASC] in ascending distance. *)
Lemma order_by_distance_sorted rows :
  StronglySorted (fun a b : poem_row * Q => (snd a <= snd b)%Q) (order_by_distance rows).
Proof.
  induction rows as [|x rows IH]; simpl; [constructor|].
  now apply insert_by_distance_sorted.
Qed.

(** C5, on the code. A poem whose only line is at cosine distance 0 from the
    query vector, an exact match, is returned with the score 0 and not 1. *)
Theorem exact_match_scores_zero :
  (cosine_distance [1; 0] [1; 0] == 0)%Q ->
  exists r,
    semantic_search cosine_distance (fun _ => Some [1%Q; 0%Q])
      [Sample.stored_poem] [Sample.stored_line] (u "明月") 10 0 = Ok [r]
    /\ source r = Sample.stored_poem
    /\ (score r == 0)%Q.
Proof.
  intros H.
  exists (present (Sample.stored_poem, cosine_distance [1%Q; 0%Q] [1%Q; 0%Q])).
  split; [reflexivity|]. split; [reflexivity|]. now apply present_zero.
Qed.

End RetrievalFacts.

Lemma exact_match_scores_zero_witness :
  (Sample.unit_distance [1; 0] [1; 0] == 0)%Q
  /\ exists r,
       Retrieval.semantic_search Sample.unit_distance (fun _ => Some [1%Q; 0%Q])
         [Sample.stored_poem] [Sample.stored_line] (u "明月") 10 0 = Ok [r]
       /\ Retrieval.source r = Sample.stored_poem
       /\ (Retrieval.score r == 0)%Q.
Proof.
  assert (H : (Sample.unit_distance [1; 0] [1; 0] == 0)%Q) by reflexivity.
  split; [exact H|].
  exact (exact_match_scores_zero Sample.unit_distance H).
Defined.

(** * Further properties of the importer *)

(** ** The embedding client: order and retries *)

(** After any number of failed attempts that the loop retries, a response
    that carries one vector per non-blank text, each under the index of its
    text and in any order, gives every non-blank text its own vector and
    every blank text [None]. *)
Theorem get_batch_embeddings_restores_order
  (service : list str -> nat -> response) (texts : list str)
  (f : str -> embedding) (k : nat) (items : list (Z * embedding)) :
  List.filter valid texts <> [] ->
  k < max_retries ->
  (forall a, a < k -> retried (service (List.filter valid texts) a) = true) ->
  service (List.filter valid texts) k = Data items ->
  Permutation items
    (imap (fun i t => (Z.of_nat i, f t)) (List.filter valid texts)) ->
  fst (get_batch_embeddings service texts)
  = Ok (map (fun t => if valid t then Some (f t) else None) texts).
Proof.
  intros Hvalid Hk Hretried Hdata Hperm.
  assert (Hne : nonempty texts = true).
  { destruct texts; [now elim Hvalid | reflexivity]. }
  assert (Hnv : nonempty (List.filter valid texts) = true).
  { destruct (List.filter valid texts); [now elim Hvalid | reflexivity]. }
  unfold get_batch_embeddings. rewrite Hne, Hnv. cbn [negb fst].
  rewrite (retry_loop_first_data _ max_retries 0 k items Hk Hretried Hdata).
  assert (Hsorted : sorted_by_index items
                    = imap (fun i t => (Z.of_nat i, f t)) (List.filter valid texts)).
  { apply ascending_unique.
    - apply sorted_by_index_sorted.
    - apply (indexed_ascending f (List.filter valid texts) 0).
    - rewrite sorted_by_index_perm. exact Hperm. }
  rewrite Hsorted.
  assert (Hmap : map snd (imap (fun i t => (Z.of_nat i, f t)) (List.filter valid texts))
                 = map f (List.filter valid texts)).
  { apply list_eq. intros i. rewrite !list_lookup_fmap, list_lookup_imap.
    destruct (List.filter valid texts !! i); reflexivity. }
  rewrite Hmap.
  destruct (map f (List.filter valid texts)) as [|e es] eqn:Hm.
  { destruct (List.filter valid texts); [now elim Hvalid | discriminate]. }
  rewrite <- Hm. apply rehydrate_restores.
Qed.

Lemma get_batch_embeddings_restores_order_witness :
  fst (get_batch_embeddings Cases.late_reversed Cases.three_texts)
  = Ok [Some (Cases.code_points (u "明月")); None; Some (Cases.code_points (u "故乡"))].
Proof.
  assert (Hv : List.filter valid Cases.three_texts <> []) by (vm_compute; discriminate).
  assert (Hk : 1 < max_retries) by (unfold max_retries; lia).
  assert (Hr : forall a, a < 1 ->
                 retried (Cases.late_reversed (List.filter valid Cases.three_texts) a) = true).
  { intros a Ha. destruct a; [reflexivity | lia]. }
  assert (Hd : Cases.late_reversed (List.filter valid Cases.three_texts) 1
               = Data (rev (imap (fun i t => (Z.of_nat i, Cases.code_points t))
                              (List.filter valid Cases.three_texts)))) by reflexivity.
  rewrite (get_batch_embeddings_restores_order Cases.late_reversed Cases.three_texts
             Cases.code_points 1 _ Hv Hk Hr Hd (Permutation_sym (Permutation_rev _))).
  vm_compute. reflexivity.
Defined.

(** A batch without a non-blank text costs no request. *)
Theorem blank_batch_makes_no_request
  (service : list str -> nat -> response) (texts : list str) :
  (forall t, t ∈ texts -> valid t = false) ->
  get_batch_embeddings service texts = (Ok (replicate (length texts) None), []).
Proof.
  intros Hblank. unfold get_batch_embeddings.
  destruct texts as [|t0 rest] eqn:Ht; [reflexivity|]. rewrite <- Ht in *.
  assert (Hf : List.filter valid texts = []).
  { clear Ht. induction texts as [|t l IH]; [reflexivity|]. simpl.
    rewrite (Hblank t) by left. apply IH. intros x Hx. apply Hblank. now right. }
  rewrite Hf. subst texts. reflexivity.
Qed.

Lemma blank_batch_makes_no_request_witness :
  get_batch_embeddings Sample.healthy_service [u " "; []; [9%N; 12288%N]]
  = (Ok [None; None; None], []).
Proof.
  apply (blank_batch_makes_no_request Sample.healthy_service [u " "; []; [9%N; 12288%N]]).
  intros t Ht. repeat (apply elem_of_cons in Ht as [->|Ht]; [vm_compute; reflexivity|]).
  inversion Ht.
Defined.

(** Whatever the service does, the client makes at most three requests,
    sleeps 2 seconds after a first failed attempt and 4 after a second, and
    never sleeps after its last request. *)
Theorem get_batch_embeddings_trace
  (service : list str -> nat -> response) (texts : list str) :
  let trace := snd (get_batch_embeddings service texts) in
  trace = [] \/ trace = [Post] \/ trace = [Post; Sleep 2; Post]
  \/ trace = [Post; Sleep 2; Post; Sleep 4; Post].
Proof.
  unfold get_batch_embeddings.
  destruct (nonempty texts); cbn [negb snd]; [|now left].
  destruct (nonempty (List.filter valid texts)); cbn [negb snd]; [|now left].
  right. unfold max_retries. simpl.
  set (server := service (List.filter valid texts)).
  destruct (server 0) as [c0| | |i0]; simpl;
    try destruct (c0 =? 400)%Z; simpl; auto;
    destruct (server 1) as [c1| | |i1]; simpl;
    try destruct (c1 =? 400)%Z; simpl; auto;
    destruct (server 2) as [c2| | |i2]; simpl;
    try destruct (c2 =? 400)%Z; simpl; auto.
Qed.

(** ** The orchestrator: failures and sub-batches *)

Lemma collect_raises (futures : list (result (list (option embedding)))) i e :
  futures !! i = Some (Raise e) ->
  forall order results_in_order,
    i ∈ order ->
    exists e', collect order futures results_in_order = Raise e'.
Proof.
  intros Hi. induction order as [|index rest IH]; intros rio Hin; [inversion Hin|].
  simpl. destruct (futures !! index) as [[r|e0]|] eqn:Hindex; [| eauto |].
  - apply IH. apply elem_of_cons in Hin as [->|Hin]; [congruence | exact Hin].
  - apply IH. apply elem_of_cons in Hin as [->|Hin]; [congruence | exact Hin].
Qed.

(** One worker that raised is enough for the collection to raise, in whatever
    order the workers complete: no merged list is produced. *)
Theorem gather_fails_with_a_worker
  (futures : list (result (list (option embedding)))) (order : list nat)
  (i : nat) (e : exn) :
  Permutation order (seq 0 (length futures)) ->
  futures !! i = Some (Raise e) ->
  exists e', gather order futures = Raise e'.
Proof.
  intros Hperm Hi. unfold gather.
  destruct (collect_raises futures i e Hi order (replicate (length futures) None))
    as [e' ->].
  - rewrite Hperm. apply elem_of_seq. apply lookup_lt_Some in Hi. lia.
  - now exists e'.
Qed.

Lemma gather_fails_with_a_worker_witness :
  exists e', gather [1; 0] [Ok [Some [1%Q]]; Raise IndexError] = Raise e'.
Proof.
  apply (gather_fails_with_a_worker [Ok [Some [1%Q]]; Raise IndexError] [1; 0] 1 IndexError).
  - simpl. apply perm_swap.
  - reflexivity.
Defined.

Lemma slices_concat {A} (size : nat) :
  0 < size ->
  forall fuel (l : list A), length l <= fuel -> concat (slices fuel size l) = l.
Proof.
  intros Hsize. induction fuel as [|fuel IH]; intros l Hl.
  - destruct l; [reflexivity | simpl in Hl; lia].
  - destruct l as [|x l]; [reflexivity|].
    cbn [slices concat]. rewrite IH.
    + apply take_drop.
    + rewrite length_drop. simpl in *. lia.
Qed.

Lemma slices_bounded {A} (size : nat) :
  0 < size ->
  forall fuel (l : list A),
    Forall (fun b => 0 < length b <= size) (slices fuel size l).
Proof.
  intros Hsize. induction fuel as [|fuel IH]; intros l; [constructor|].
  destruct l as [|x l]; [constructor|].
  cbn [slices]. constructor; [|apply IH].
  rewrite length_take. destruct size; [lia|]. simpl. lia.
Qed.

(** The sentences of a batch are cut into sub-batches without loss and in
    order: the sub-batches put end to end are the sentences, and each of them
    holds between one and [size] sentences. *)
Theorem batches_of_partition {A} (size : nat) (l : list A) :
  0 < size ->
  concat (batches_of size l) = l
  /\ Forall (fun b => 0 < length b <= size) (batches_of size l).
Proof.
  intros Hsize. unfold batches_of. split.
  - now apply slices_concat.
  - now apply slices_bounded.
Qed.

Lemma batches_of_partition_witness :
  concat (batches_of embedding_api_batch_size (seq 0 23)) = seq 0 23
  /\ map length (batches_of embedding_api_batch_size (seq 0 23)) = [10; 10; 3].
Proof.
  split.
  - apply (batches_of_partition embedding_api_batch_size (seq 0 23)).
    unfold embedding_api_batch_size. lia.
  - reflexivity.
Defined.

(** ** Sentence segmentation *)

Lemma lstrip_no_space (s : str) :
  Forall (fun c => is_space c = false) s -> lstrip s = s.
Proof. intros H. destruct H as [|c l Hc Hl]; simpl; [reflexivity | now rewrite Hc]. Qed.

Lemma strip_no_space (s : str) :
  Forall (fun c => is_space c = false) s -> strip s = s.
Proof.
  intros H. unfold strip, rstrip. rewrite (lstrip_no_space s H).
  rewrite lstrip_no_space; [apply rev_involutive|].
  rewrite Forall_forall in H |- *. intros c Hc. apply H.
  apply list_elem_of_In, in_rev. now apply list_elem_of_In.
Qed.

Lemma split_on_chars :
  forall s cur piece c,
    piece ∈ split_on cur s -> c ∈ piece ->
    c ∈ cur \/ (c ∈ s /\ is_terminator c = false).
Proof.
  induction s as [|c0 s IH]; intros cur piece c Hin Hc; simpl in Hin.
  - apply list_elem_of_singleton in Hin as ->. now left.
  - destruct (is_terminator c0) eqn:Ht.
    + apply elem_of_cons in Hin as [->|Hin]; [now left|].
      destruct (IH _ _ _ Hin Hc) as [H|[H Hn]]; [inversion H|].
      right. split; [now right | exact Hn].
    + destruct (IH _ _ _ Hin Hc) as [H|[H Hn]].
      * apply elem_of_app in H as [H|H]; [now left|].
        apply list_elem_of_singleton in H as ->. right. split; [left | exact Ht].
      * right. split; [now right | exact Hn].
Qed.

Lemma split_on_concat :
  forall s cur,
    concat (split_on cur s) = cur ++ List.filter (fun c => negb (is_terminator c)) s.
Proof.
  induction s as [|c0 s IH]; intros cur; simpl.
  - reflexivity.
  - destruct (is_terminator c0); simpl.
    + now rewrite IH.
    + rewrite IH, <- app_assoc. reflexivity.
Qed.

Lemma sub_noise_chars is_decimal :
  forall s skip c, c ∈ sub_noise is_decimal skip s -> c ∈ s.
Proof.
  induction s as [|c0 s IH]; intros skip c H; cbn [sub_noise] in H; [exact H|].
  destruct skip as [|k]; [|right; eauto].
  destruct (noise_match is_decimal (c0 :: s)) as [[|k]|].
  - apply elem_of_cons in H as [->|H]; [left | right; eauto].
  - right; eauto.
  - apply elem_of_cons in H as [->|H]; [left | right; eauto].
Qed.

Lemma keep_long_pieces (pieces : list str) :
  Forall (fun p => Forall (fun c => is_space c = false) p) pieces ->
  map strip (List.filter (fun s => 4 <=? length (strip s)) pieces)
  = List.filter (fun p => 4 <=? length p) pieces.
Proof.
  induction 1 as [|p l Hp Hl IH]; [reflexivity|].
  cbn [List.filter]. rewrite (strip_no_space p Hp).
  destruct (4 <=? length p); cbn [map]; [rewrite (strip_no_space p Hp)|]; now rewrite IH.
Qed.

Section SegmentationFacts.

Variable is_decimal : N -> bool.

(** the text once the noise and every whitespace are taken out *)
Let cleaned (text : str) : str :=
  List.filter (fun c => negb (is_space c)) (sub_noise is_decimal 0 text).

Lemma cleaned_pieces text :
  Forall (fun p => Forall (fun c => is_space c = false) p) (split_on [] (cleaned text)).
Proof.
  rewrite Forall_forall. intros p Hp. rewrite Forall_forall. intros c Hc.
  destruct (split_on_chars _ _ _ _ Hp Hc) as [H|[H _]]; [inversion H|].
  apply list_elem_of_In, filter_In in H as [_ H]. now apply negb_true_iff in H.
Qed.

(** Every sentence has at least four characters, none of them a whitespace
    or one of the three terminators, and all of them characters of the text. *)
Theorem split_sentences_clean (text s : str) :
  s ∈ split_sentences is_decimal text ->
  4 <= length s
  /\ Forall (fun c => is_space c = false /\ is_terminator c = false /\ c ∈ text) s.
Proof.
  unfold split_sentences. fold (cleaned text).
  rewrite (keep_long_pieces _ (cleaned_pieces text)).
  intros Hs. apply list_elem_of_In, filter_In in Hs as [Hp Hlen].
  split; [now apply Nat.leb_le|].
  rewrite Forall_forall. intros c Hc.
  destruct (split_on_chars _ _ _ _ (proj2 (list_elem_of_In _ _) Hp) Hc) as [H|[H Hn]];
    [inversion H|].
  apply list_elem_of_In, filter_In in H as [H Hsp].
  repeat split; [now apply negb_true_iff in Hsp | exact Hn |].
  apply (sub_noise_chars is_decimal text 0). now apply list_elem_of_In.
Qed.

(** The sentences are, in their order, the segments between terminators of
    the cleaned text that have at least four characters; the segments put end
    to end are the cleaned text without its terminators. *)
Theorem split_sentences_segments (text : str) :
  split_sentences is_decimal text
  = List.filter (fun p => 4 <=? length p) (split_on [] (cleaned text))
  /\ concat (split_on [] (cleaned text))
     = List.filter (fun c => negb (is_terminator c)) (cleaned text).
Proof.
  split.
  - unfold split_sentences. fold (cleaned text).
    apply keep_long_pieces, cleaned_pieces.
  - apply split_on_concat.
Qed.

End SegmentationFacts.

Lemma split_sentences_clean_witness :
  u "举头望明月" ∈ split_sentences Sample.ascii_digit
                    (u "床前明月光[12]，疑是(注)地上 霜。举头望明月！低头。")
  /\ 4 <= length (u "举头望明月").
Proof.
  assert (H : u "举头望明月" ∈ split_sentences Sample.ascii_digit
                (u "床前明月光[12]，疑是(注)地上 霜。举头望明月！低头。")).
  { vm_compute. right. left. }
  split; [exact H|].
  exact (proj1 (split_sentences_clean Sample.ascii_digit _ _ H)).
Defined.

(** ** The dimension tables: insert or skip *)

Lemma named_row (n : str) (t : list (Z * str)) :
  existsb (fun r => str_eqb (snd r) n) t = true <-> n ∈ map snd t.
Proof.
  induction t as [|r t IH]; simpl.
  - split; [discriminate | intros H; inversion H].
  - unfold str_eqb at 1. rewrite orb_true_iff, bool_decide_eq_true, IH, elem_of_cons.
    split; intros [H|H]; auto.
Qed.

Lemma insert_dynasties_appends (names : list str) :
  forall t, exists new, insert_dynasties names t = t ++ new.
Proof.
  induction names as [|n rest IH]; intros t; simpl.
  - exists []. now rewrite app_nil_r.
  - destruct (existsb _ t); [apply IH|].
    destruct (IH (t ++ [(next_id (map fst t), n)])) as [new ->].
    eexists. now rewrite <- app_assoc.
Qed.

Lemma insert_dynasties_keeps_names (names : list str) t n :
  n ∈ map snd t -> n ∈ map snd (insert_dynasties names t).
Proof.
  intros H. destruct (insert_dynasties_appends names t) as [new ->].
  rewrite map_app. apply elem_of_app. now left.
Qed.

Lemma insert_dynasties_adds_names (names : list str) :
  forall t n, n ∈ names -> n ∈ map snd (insert_dynasties names t).
Proof.
  induction names as [|n0 rest IH]; intros t n Hn; [inversion Hn|].
  simpl. apply elem_of_cons in Hn as [->|Hn]; [|now apply IH].
  apply insert_dynasties_keeps_names.
  destruct (existsb _ t) eqn:E; [now apply named_row|].
  rewrite map_app. apply elem_of_app. right. simpl. left.
Qed.

Lemma insert_dynasties_present (names : list str) :
  forall t, (forall n, n ∈ names -> n ∈ map snd t) -> insert_dynasties names t = t.
Proof.
  induction names as [|n rest IH]; intros t H; [reflexivity|].
  simpl. rewrite (proj2 (named_row n t)) by (apply H; left).
  apply IH. intros m Hm. apply H. now right.
Qed.

(** Inserting the dynasties of a batch leaves every row of the table in its
    place, puts every name of the batch in the table, and changes nothing
    when it is done a second time. *)
Theorem insert_dynasties_upsert (names : list str) (t : list (Z * str)) :
  (exists new, insert_dynasties names t = t ++ new)
  /\ (forall n, n ∈ names -> n ∈ map snd (insert_dynasties names t))
  /\ insert_dynasties names (insert_dynasties names t) = insert_dynasties names t.
Proof.
  split; [apply insert_dynasties_appends|].
  split; [intros n; apply insert_dynasties_adds_names|].
  apply insert_dynasties_present. intros n. apply insert_dynasties_adds_names.
Qed.

(** A table in which no name occurs twice stays such a table: a name of the
    batch that the table has is skipped, and a name that occurs twice in the
    batch is inserted once. *)
Theorem insert_dynasties_unique (names : list str) (t : list (Z * str)) :
  NoDup (map snd t) ->
  NoDup (map snd (insert_dynasties names t)).
Proof.
  revert t. induction names as [|n rest IH]; intros t Hn; simpl; [auto|].
  destruct (existsb _ t) eqn:E; [now apply IH|].
  apply IH; rewrite map_app; simpl; apply NoDup_app.
  repeat split; [exact Hn | | apply NoDup_singleton].
  intros x Hx Hx'. apply list_elem_of_singleton in Hx' as ->.
  apply named_row in Hx. congruence.
Qed.

Lemma insert_dynasties_unique_witness :
  NoDup (map snd (insert_dynasties [u "唐代"; u "宋代"; u "唐代"] [(7%Z, u "宋代")]))
  /\ map snd (insert_dynasties [u "唐代"; u "宋代"; u "唐代"] [(7%Z, u "宋代")])
     = [u "宋代"; u "唐代"].
Proof.
  split.
  - apply (insert_dynasties_unique [u "唐代"; u "宋代"; u "唐代"] [(7%Z, u "宋代")]);
      simpl; apply NoDup_singleton.
  - vm_compute. reflexivity.
Defined.

Lemma lookup_id_first (m : list (str * Z)) (k : str) :
  k ∈ map fst m -> exists v, lookup_id str_eqb m k = Some v /\ (k, v) ∈ m.
Proof.
  induction m as [|[k' v] m IH]; intros H; [inversion H|].
  simpl. unfold str_eqb at 1. destruct (bool_decide (k' = k)) eqn:E.
  - apply bool_decide_eq_true in E as ->. exists v. split; [reflexivity | left].
  - apply bool_decide_eq_false in E. simpl in H.
    apply elem_of_cons in H as [->|H]; [congruence|].
    destruct (IH H) as (w & Hw & Hin). exists w. split; [exact Hw | now right].
Qed.

(** After the insert, the map read back from the table has an id for every
    dynasty of the batch, and it is the id of a row of that name. *)
Theorem dynasty_map_complete (names : list str) (t : list (Z * str)) (n : str) :
  n ∈ names ->
  exists i,
    lookup_id str_eqb (select_dynasties names (insert_dynasties names t)) n = Some i
    /\ (i, n) ∈ insert_dynasties names t.
Proof.
  intros Hn. set (t' := insert_dynasties names t).
  assert (Hin : n ∈ map snd t') by now apply insert_dynasties_adds_names.
  destruct (lookup_id_first (select_dynasties names t') n) as (i & Hi & Hrow).
  - unfold select_dynasties. rewrite map_map. simpl.
    apply list_elem_of_fmap in Hin as ([j m] & -> & Hjm). simpl.
    apply list_elem_of_fmap. exists (j, m). split; [reflexivity|].
    apply list_elem_of_In, filter_In. split; [now apply list_elem_of_In|].
    simpl. apply existsb_exists. exists m. split; [now apply list_elem_of_In|].
    unfold str_eqb. now apply bool_decide_eq_true.
  - exists i. split; [exact Hi|].
    unfold select_dynasties in Hrow.
    apply list_elem_of_fmap in Hrow as ([j m] & Heq & Hjm). simpl in Heq.
    injection Heq as -> ->.
    apply list_elem_of_In, filter_In in Hjm as [Hjm _]. now apply list_elem_of_In.
Qed.

Lemma dynasty_map_complete_witness :
  exists i,
    lookup_id str_eqb
      (select_dynasties [u "唐代"; u "宋代"]
         (insert_dynasties [u "唐代"; u "宋代"] [(7%Z, u "宋代")])) (u "唐代") = Some i
    /\ (i, u "唐代") ∈ insert_dynasties [u "唐代"; u "宋代"] [(7%Z, u "宋代")].
Proof.
  apply (dynasty_map_complete [u "唐代"; u "宋代"] [(7%Z, u "宋代")] (u "唐代")).
  left.
Defined.

(** ** The loader: nothing of a refused batch is committed *)

Lemma raises_bind_l {A B} (m : result A) (k : A -> result B) :
  raises m -> raises (bind m k).
Proof. intros [e ->]. now exists e. Qed.

Lemma raises_bind_r {A B} (m : result A) (k : A -> result B) :
  (forall a, raises (k a)) -> raises (bind m k).
Proof. intros H. destruct m as [a|e]; [apply H | now exists e]. Qed.

Lemma raises_execute env st : db_fails env st = true -> raises (execute env st).
Proof. intros H. unfold execute. rewrite H. now eexists. Qed.

Ltac find_raise H :=
  lazymatch goal with
  | |- raises (execute _ _) => apply raises_execute; exact H
  | |- raises (bind _ _) =>
      first [ apply raises_bind_l; find_raise H
            | apply raises_bind_r; intro; find_raise H ]
  | |- raises (if ?c then _ else _) => destruct c; find_raise H
  end.

Lemma remove_dups_nonempty `{EqDecision A} (l : list A) :
  l <> [] -> nonempty (remove_dups l) = true.
Proof.
  intros H. destruct l as [|x l]; [now elim H|].
  assert (Hx : x ∈ remove_dups (x :: l)) by (apply elem_of_remove_dups; left).
  destruct (remove_dups (x :: l)); [inversion Hx | reflexivity].
Qed.

Lemma batch_try_refused is_decimal env (poem_batch : list poem) t st :
  poem_batch <> [] ->
  always_sent st = true ->
  db_fails env st = true ->
  raises (batch_try is_decimal env poem_batch t).
Proof.
  intros Hne Hsent Hfail. unfold batch_try. cbv zeta.
  rewrite !remove_dups_nonempty
    by (destruct poem_batch; [now elim Hne | discriminate]).
  destruct st; try discriminate Hsent; find_raise Hfail.
Qed.

(** When the database refuses one of the statements that the [try] of every
    batch sends, nothing of the batch is committed. When the rollback of the
    handler is carried out, the call returns as a call that succeeded and the
    open transaction holds what was committed before; when the rollback
    raises as well, as on a lost connection, the call raises. *)
Theorem refused_statement_commits_nothing
  (is_decimal : N -> bool) (env : batch_env) (poem_batch : list poem)
  (c : connection) (st : statement) :
  poem_batch <> [] ->
  always_sent st = true ->
  db_fails env st = true ->
  db_fails env OpenCursor = false ->
  committed (snd (process_and_insert_batch is_decimal env poem_batch c)) = committed c
  /\ (db_fails env Rollback = false ->
      process_and_insert_batch is_decimal env poem_batch c = (Ok tt, rollback c)
      /\ pending (rollback c) = committed c)
  /\ (db_fails env Rollback = true ->
      raises (fst (process_and_insert_batch is_decimal env poem_batch c))).
Proof.
  intros Hne Hsent Hfail Hcur.
  destruct (batch_try_refused is_decimal env poem_batch (pending c) st Hne Hsent Hfail)
    as [e He].
  unfold process_and_insert_batch, execute.
  destruct poem_batch; [now elim Hne|]. cbn [nonempty negb].
  rewrite Hcur, He.
  destruct (db_fails env Rollback); repeat split; try discriminate.
  intros _. now eexists.
Qed.

Lemma refused_statement_commits_nothing_witness :
  process_and_insert_batch Sample.ascii_digit Sample.poem_insert_refused
    [Sample.the_poem] Sample.fresh_connection
  = (Ok tt, rollback Sample.fresh_connection).
Proof.
  apply (refused_statement_commits_nothing Sample.ascii_digit Sample.poem_insert_refused
           [Sample.the_poem] Sample.fresh_connection InsertPoems);
    [discriminate | reflexivity | reflexivity | reflexivity | reflexivity].
Defined.

(** ** The run and its checkpoint log *)

Lemma logged_path (p : str) (processed : list str) :
  existsb (str_eqb p) processed = true <-> p ∈ processed.
Proof.
  induction processed as [|q l IH]; simpl.
  - split; [discriminate | intros H; inversion H].
  - unfold str_eqb at 1. rewrite orb_true_iff, bool_decide_eq_true, IH, elem_of_cons.
    tauto.
Qed.

Section RunFacts.

Variable convert : str -> str.
Variable py_repr : json -> str.
Variable lower : str -> str.
Variable is_decimal : N -> bool.









(** When every file of the corpus is in the log, a run changes nothing:
    neither the log nor the database, and no batch is sent. *)
Theorem run_import_skips_logged (files : corpus) (envs : nat -> batch_env)
  (st : run_state) :
  (forall f, f ∈ files -> fst f ∈ map strip (log st)) ->
  run_import convert py_repr lower is_decimal files envs st = st.
Proof.
  intros Hlogged. unfold run_import, run_import_call.
  assert (Hnone : List.filter
                    (fun f => negb (existsb (str_eqb (fst f)) (map strip (log st)))) files
                  = []).
  { induction files as [|f rest IH]; [reflexivity|]. simpl.
    rewrite (proj2 (logged_path _ _)) by (apply Hlogged; left). simpl.
    apply IH. intros g Hg. apply Hlogged. now right. }
  rewrite Hnone. reflexivity.
Qed.

End RunFacts.

Lemma run_import_skips_logged_witness :
  run_import Sample.simplified Sample.any_repr Sample.ascii_lower Sample.ascii_digit
    Sample.one_file_corpus (fun _ => Sample.healthy)
    {| conn := Sample.fresh_connection; log := [Sample.file_path]; batches := 0 |}
  = {| conn := Sample.fresh_connection; log := [Sample.file_path]; batches := 0 |}.
Proof.
  apply (run_import_skips_logged Sample.simplified Sample.any_repr Sample.ascii_lower
           Sample.ascii_digit Sample.one_file_corpus (fun _ => Sample.healthy)).
  intros f Hf. apply list_elem_of_singleton in Hf as ->. vm_compute. left.
Defined.

Section ResumeFacts.

Variable convert : str -> str.
Variable py_repr : json -> str.
Variable lower : str -> str.
Variable is_decimal : N -> bool.
Variable envs : nat -> batch_env.

Hypothesis cursor_opens : forall n, db_fails (envs n) OpenCursor = false.
Hypothesis rollback_works : forall n, db_fails (envs n) Rollback = false.






End ResumeFacts.


(** ** Cleaning one record: what is rejected, and where the author comes from *)

Lemma join_empty_not_strings (l : list json) :
  (exists x, x ∈ l /\ is_str x = false) -> join_empty (JList l) = Raise TypeError.
Proof.
  intros (x & Hx & Hs). simpl.
  assert (H : forall acc,
             for_each l
               (fun x acc => match x with JStr s => Ok (acc ++ s) | _ => Raise TypeError end)
               acc = Raise TypeError).
  { induction l as [|y l IH]; intros acc; [inversion Hx|].
    simpl. apply elem_of_cons in Hx as [<-|Hx].
    - destruct x; try reflexivity. discriminate.
    - destruct y; try reflexivity. simpl. now apply IH. }
  apply H.
Qed.

Section RejectionFacts.

Variable convert : str -> str.
Variable py_repr : json -> str.
Variable lower : str -> str.

(** A record that brings no text (no paragraphs, an empty list of them, or an
    empty string) is rejected, given a converter that maps the empty text to
    itself. *)
Theorem record_without_text_is_rejected (author_dynasty_map : list (str * str))
  (poem_data : dict) (file_path : str) (fallback_author : json) :
  convert [] = [] ->
  lookup_key poem_data (u "paragraphs") = None
  \/ lookup_key poem_data (u "paragraphs") = Some (JList [])
  \/ lookup_key poem_data (u "paragraphs") = Some (JStr []) ->
  process_poem_data convert py_repr lower author_dynasty_map
    poem_data file_path fallback_author = None.
Proof.
  intros Hconv Hpar. unfold process_poem_data, process_poem_try.
  destruct (strip_method _) as [stripped|]; cbn [bind]; [|reflexivity].
  assert (Hjoin : join_empty (get poem_data (u "paragraphs") (JList [])) = Ok []).
  { unfold get. destruct Hpar as [->|[->| ->]]; reflexivity. }
  rewrite Hjoin. cbn [bind]. rewrite Hconv. reflexivity.
Qed.

(** A record whose paragraphs hold something that is not a string, or whose
    author is a non-empty value that is not a string, is rejected: the
    exception raised on it is caught and the record dropped. *)
Theorem malformed_record_is_rejected (author_dynasty_map : list (str * str))
  (poem_data : dict) (file_path : str) (fallback_author : json) :
  (exists l x, lookup_key poem_data (u "paragraphs") = Some (JList l)
               /\ x ∈ l /\ is_str x = false)
  \/ (exists a, lookup_key poem_data (u "author") = Some a
                /\ truthy a = true /\ is_str a = false) ->
  process_poem_data convert py_repr lower author_dynasty_map
    poem_data file_path fallback_author = None.
Proof.
  intros [(l & x & Hl & Hx & Hs)|(a & Ha & Ht & Hs)];
    unfold process_poem_data, process_poem_try.
  - destruct (strip_method _) as [stripped|]; cbn [bind]; [|reflexivity].
    replace (get poem_data (u "paragraphs") (JList [])) with (JList l)
      by (unfold get; now rewrite Hl).
    rewrite join_empty_not_strings by eauto. reflexivity.
  - replace (get poem_data (u "author") fallback_author) with a
      by (unfold get; now rewrite Ha).
    rewrite Ht. destruct a; try discriminate; reflexivity.
Qed.

(** The author of an accepted record: the record's own author if it has a
    non-empty one, else the file's, else the one the path names, else "佚名";
    in each case stripped, converted and cut at 200 characters. *)
Theorem author_of_accepted_record (author_dynasty_map : list (str * str))
  (poem_data : dict) (file_path : str) (fallback_author : json) (p : poem) :
  process_poem_data convert py_repr lower author_dynasty_map
    poem_data file_path fallback_author = Some p ->
  (forall s, get poem_data (u "author") fallback_author = JStr s -> s <> [] ->
             author p = take 200 (convert (strip s)))
  /\ (truthy (get poem_data (u "author") fallback_author) = false ->
      author p
      = take 200 (convert (strip
          (default (u "佚名")
             (first_value (fun keyword => contains keyword (lower file_path))
                path_author_map)))))
  /\ content p <> [].
Proof.
  unfold process_poem_data, process_poem_try.
  destruct (truthy (get poem_data (u "author") fallback_author)) eqn:Ht.
  - destruct (strip_method _) as [stripped|] eqn:Hs; cbn [bind]; [|discriminate].
    destruct (join_empty _) as [joined|]; cbn [bind]; [|discriminate].
    destruct (convert joined) as [|c cs] eqn:Hc; [discriminate|].
    cbn [nonempty negb]. intros [= <-]. cbn [author content].
    repeat split; try discriminate.
    intros s Ha _. rewrite Ha in Hs. simpl in Hs. now injection Hs as <-.
  - destruct (first_value _ path_author_map) as [name|]; cbn [strip_method bind default];
      (destruct (join_empty _) as [joined|]; cbn [bind]; [|discriminate];
       destruct (convert joined) as [|c cs] eqn:Hc; [discriminate|];
       cbn [nonempty negb]; intros [= <-]; cbn [author content];
       repeat split; try discriminate;
       intros s Ha Hne; rewrite Ha in Ht; destruct s; [now elim Hne | discriminate]).
Qed.

End RejectionFacts.

Lemma record_without_text_is_rejected_witness :
  process_poem_data Sample.simplified Sample.any_repr Sample.ascii_lower []
    [(u "title", JStr (u "无题")); (u "paragraphs", JList [])] Sample.file_path JNull
  = None.
Proof.
  apply (record_without_text_is_rejected Sample.simplified Sample.any_repr
           Sample.ascii_lower [] [(u "title", JStr (u "无题")); (u "paragraphs", JList [])]
           Sample.file_path JNull eq_refl).
  right. left. vm_compute. reflexivity.
Defined.

Lemma malformed_record_is_rejected_witness :
  process_poem_data Sample.simplified Sample.any_repr Sample.ascii_lower []
    [(u "title", JStr (u "无题")); (u "paragraphs", JList [JStr (u "春眠不觉晓"); JInt 3])]
    Sample.file_path JNull
  = None.
Proof.
  apply (malformed_record_is_rejected Sample.simplified Sample.any_repr
           Sample.ascii_lower []).
  left. exists [JStr (u "春眠不觉晓"); JInt 3], (JInt 3).
  split; [vm_compute; reflexivity|]. split; [right; left | reflexivity].
Defined.

Lemma author_of_accepted_record_witness :
  process_poem_data Sample.simplified Sample.any_repr Sample.ascii_lower []
    [(u "paragraphs", JList [JStr (u "对酒当歌，人生几何。")])]
    (u "/data/chinese-poetry/caocao/caocao.json") JNull
  = Some {| title := u "无题"; author := u "曹操"; dynasty := u "两汉";
            content := u "对酒当歌，人生几何。" |}
  /\ u "曹操"
     = take 200 (Sample.simplified (strip
         (default (u "佚名")
            (first_value
               (fun keyword =>
                  contains keyword
                    (Sample.ascii_lower (u "/data/chinese-poetry/caocao/caocao.json")))
               path_author_map)))).
Proof.
  assert (H : process_poem_data Sample.simplified Sample.any_repr Sample.ascii_lower []
                [(u "paragraphs", JList [JStr (u "对酒当歌，人生几何。")])]
                (u "/data/chinese-poetry/caocao/caocao.json") JNull
              = Some {| title := u "无题"; author := u "曹操"; dynasty := u "两汉";
                        content := u "对酒当歌，人生几何。" |})
    by (vm_compute; reflexivity).
  split; [exact H|].
  apply (proj1 (proj2 (author_of_accepted_record Sample.simplified Sample.any_repr
                         Sample.ascii_lower [] _ _ JNull _ H))).
  vm_compute. reflexivity.
Defined.

(** ** The lines of a batch *)

Lemma poem_lines_spec (poem_id : Z) (sents : list str) (embs : list (option embedding)) :
  forall count acc idx acc' idx',
    poem_lines count poem_id sents embs (acc, idx) = Ok (acc', idx') ->
    idx' = idx + count
    /\ exists new, acc' = acc ++ new
       /\ forall row, row ∈ new ->
            exists j s e, j < count /\ row = (poem_id, s, e)
              /\ sents !! (idx + j) = Some s
              /\ embs !! (idx + j) = Some (Some e) /\ e <> [].
Proof.
  induction count as [|count IH]; intros acc idx acc' idx' H.
  - injection H as <- <-. split; [lia|]. exists []. rewrite app_nil_r.
    split; [reflexivity|]. intros row Hr. inversion Hr.
  - cbn [poem_lines fst snd] in H.
    destruct (embs !! idx) as [[[|x v]|]|] eqn:He; cbn [bind] in H;
      try (destruct (IH _ _ _ _ H) as (-> & new & -> & Hnew);
           split; [lia|]; exists new; split; [reflexivity|];
           intros row Hr; destruct (Hnew row Hr) as (j & s & e & Hj & -> & Hs & Hem & Hne);
           exists (S j), s, e; rewrite <- !Nat.add_succ_comm;
           repeat split; auto; lia).
    destruct (sents !! idx) as [sentence|] eqn:Hs; cbn [bind] in H; [|discriminate].
    destruct (IH _ _ _ _ H) as (-> & new & -> & Hnew).
    split; [lia|]. exists ((poem_id, sentence, x :: v) :: new).
    split; [now rewrite <- app_assoc|].
    intros row Hr. apply elem_of_cons in Hr as [->|Hr].
    + exists 0, sentence, (x :: v). rewrite Nat.add_0_r.
      repeat split; auto; try lia; discriminate.
    + destruct (Hnew row Hr) as (j & s & e & Hj & -> & Hs' & Hem & Hne).
      exists (S j), s, e. rewrite <- !Nat.add_succ_comm. repeat split; auto; lia.
Qed.

Lemma batch_lines_spec (counts : list nat) (sents : list str)
  (embs : list (option embedding)) :
  forall poem_ids i acc idx acc' idx',
    batch_lines i poem_ids counts sents embs (acc, idx) = Ok (acc', idx') ->
    exists new, acc' = acc ++ new
      /\ forall row, row ∈ new ->
           exists k count j s e,
             row = (default 0%Z (poem_ids !! k), s, e)
             /\ k < length poem_ids
             /\ counts !! (i + k) = Some count /\ j < count
             /\ sents !! (idx + sum_list (take k (drop i counts)) + j) = Some s
             /\ embs !! (idx + sum_list (take k (drop i counts)) + j) = Some (Some e)
             /\ e <> [].
Proof.
  induction poem_ids as [|pid rest IH]; intros i acc idx acc' idx' H.
  - injection H as <- <-. exists []. rewrite app_nil_r. split; [reflexivity|].
    intros row Hr. inversion Hr.
  - cbn [batch_lines] in H.
    destruct (counts !! i) as [c0|] eqn:Hc; [|discriminate].
    destruct (poem_lines c0 pid sents embs (acc, idx)) as [[acc1 idx1]|] eqn:Hp;
      cbn [bind] in H; [|discriminate].
    destruct (poem_lines_spec _ _ _ _ _ _ _ _ Hp) as (-> & new1 & -> & Hnew1).
    destruct (IH _ _ _ _ _ H) as (new2 & -> & Hnew2).
    exists (new1 ++ new2). split; [now rewrite app_assoc|].
    intros row Hr. apply elem_of_app in Hr as [Hr|Hr].
    + destruct (Hnew1 row Hr) as (j & s & e & Hj & -> & Hs & He & Hne).
      exists 0, c0, j, s, e. rewrite Nat.add_0_r. cbn [take sum_list lookup].
      rewrite Nat.add_0_r. simpl. repeat split; auto. lia.
    + destruct (Hnew2 row Hr) as (k & count & j & s & e & -> & Hk & Hcount & Hj & Hs & He & Hne).
      exists (S k), count, j, s, e.
      assert (Hsum : sum_list (take (S k) (drop i counts))
                     = c0 + sum_list (take k (drop (S i) counts))).
      { rewrite (drop_S _ _ _ Hc). reflexivity. }
      rewrite Hsum, <- Nat.add_succ_comm, !Nat.add_assoc.
      repeat split; auto. simpl. lia.
Qed.

Lemma sum_take_lengths {A} (l : list (list A)) k :
  sum_list (take k (map length l)) = length (concat (take k l)).
Proof.
  revert k. induction l as [|x l IH]; intros [|k]; simpl; auto.
  rewrite length_app, IH. reflexivity.
Qed.

Lemma lookup_concat_at {A} (l : list (list A)) k (ss : list A) j :
  l !! k = Some ss -> j < length ss ->
  concat l !! (length (concat (take k l)) + j) = ss !! j.
Proof.
  intros Hk Hj.
  assert (Hsplit : concat l = concat (take k l) ++ concat (drop k l))
    by (now rewrite <- concat_app, take_drop).
  rewrite Hsplit. rewrite lookup_app_r by lia.
  replace (length (concat (take k l)) + j - length (concat (take k l))) with j by lia.
  rewrite (drop_S _ _ _ Hk). simpl. now apply lookup_app_l.
Qed.

(** Every line the loader builds belongs to its poem: its text is one of the
    sentences of the poem whose id it carries, and its vector is the
    non-empty one computed for that very sentence; a sentence without such a
    vector gives no line. *)
Theorem lines_belong_to_their_poem (poem_ids : list Z) (sentences : list (list str))
  (all_embeddings : list (option embedding))
  (lines_to_insert : list (Z * str * embedding)) (n : nat) :
  batch_lines 0 poem_ids (map length sentences) (concat sentences) all_embeddings ([], 0)
  = Ok (lines_to_insert, n) ->
  forall poem_id s e, (poem_id, s, e) ∈ lines_to_insert ->
    exists k ss j,
      poem_ids !! k = Some poem_id /\ sentences !! k = Some ss /\ ss !! j = Some s
      /\ all_embeddings !! (length (concat (take k sentences)) + j) = Some (Some e)
      /\ e <> [].
Proof.
  intros H poem_id s e Hrow.
  destruct (batch_lines_spec _ _ _ _ _ _ _ _ _ H) as (new & Hnew & Hrows).
  simpl in Hnew. subst new.
  destruct (Hrows _ Hrow) as (k & count & j & s' & e' & Heq & Hk & Hcount & Hj & Hs & He & Hne).
  injection Heq as -> <- <-.
  simpl in Hcount, Hs, He. rewrite drop_0, sum_take_lengths in Hs, He.
  rewrite list_lookup_fmap in Hcount.
  destruct (sentences !! k) as [ss|] eqn:Hss; [|discriminate].
  injection Hcount as <-.
  destruct (lookup_lt_is_Some_2 poem_ids k Hk) as [pid Hpid].
  exists k, ss, j. rewrite Hpid. simpl.
  rewrite (lookup_concat_at _ _ _ _ Hss Hj) in Hs. auto.
Qed.

Lemma lines_belong_to_their_poem_witness :
  batch_lines 0 [5%Z; 6%Z] (map length [[u "床前明月光"; u "疑是地上霜"]; [u "春眠不觉晓"]])
    (concat [[u "床前明月光"; u "疑是地上霜"]; [u "春眠不觉晓"]])
    [Some [1%Q]; None; Some [3%Q]] ([], 0)
  = Ok ([(5%Z, u "床前明月光", [1%Q]); (6%Z, u "春眠不觉晓", [3%Q])], 3)
  /\ exists k ss j,
       [5%Z; 6%Z] !! k = Some 6%Z
       /\ [[u "床前明月光"; u "疑是地上霜"]; [u "春眠不觉晓"]] !! k = Some ss
       /\ ss !! j = Some (u "春眠不觉晓")
       /\ [Some [1%Q]; None; Some [3%Q]]
            !! (length (concat (take k [[u "床前明月光"; u "疑是地上霜"]; [u "春眠不觉晓"]])) + j)
          = Some (Some [3%Q])
       /\ [3%Q] <> [].
Proof.
  assert (H : batch_lines 0 [5%Z; 6%Z]
                (map length [[u "床前明月光"; u "疑是地上霜"]; [u "春眠不觉晓"]])
                (concat [[u "床前明月光"; u "疑是地上霜"]; [u "春眠不觉晓"]])
                [Some [1%Q]; None; Some [3%Q]] ([], 0)
              = Ok ([(5%Z, u "床前明月光", [1%Q]); (6%Z, u "春眠不觉晓", [3%Q])], 3))
    by (vm_compute; reflexivity).
  split; [exact H|].
  apply (lines_belong_to_their_poem _ _ _ _ _ H 6%Z (u "春眠不觉晓") [3%Q]).
  right. left.
Defined.

(** ** Retrieval: ranking, errors, and the service's embedding client *)

Lemma Qmin_cases (a b : Q) : Qmin a b = a \/ Qmin a b = b.
Proof. unfold Qmin, GenericMinMax.gmin. destruct (a ?= b)%Q; auto. Qed.

Lemma fold_Qmin_spec (ds : list Q) :
  forall d0,
    (fold_left Qmin ds d0 = d0 \/ In (fold_left Qmin ds d0) ds)
    /\ (fold_left Qmin ds d0 <= d0)%Q
    /\ (forall x, In x ds -> (fold_left Qmin ds d0 <= x)%Q).
Proof.
  induction ds as [|x ds IH]; intros d0; simpl.
  - repeat split; [now left | apply Qle_refl | intros x []].
  - destruct (IH (Qmin d0 x)) as (Hin & Hle & Hall). repeat split.
    + destruct Hin as [->|Hin]; [|now right; right].
      destruct (Qmin_cases d0 x) as [->| ->]; [now left | right; now left].
    + eapply Qle_trans; [exact Hle | apply Q.le_min_l].
    + intros y [<-|Hy]; [|now apply Hall].
      eapply Qle_trans; [exact Hle | apply Q.le_min_r].
Qed.

Section RankingFacts.

Import Retrieval.

Variable cosine_distance : embedding -> embedding -> Q.

Lemma minimum_spec (ds : list Q) (d : Q) :
  minimum ds = Some d -> In d ds /\ forall x, In x ds -> (d <= x)%Q.
Proof.
  destruct ds as [|d0 rest]; [discriminate|]. intros [= <-].
  destruct (fold_Qmin_spec rest d0) as (Hin & Hle & Hall). split.
  - destruct Hin as [->|Hin]; [now left | now right].
  - intros x [<-|Hx]; auto.
Qed.

Lemma order_by_distance_in rows y : In y (order_by_distance rows) -> In y rows.
Proof.
  induction rows as [|x rows IH]; simpl; [auto|]. intros H.
  destruct (insert_by_distance_sorted x (order_by_distance rows)
              (order_by_distance_sorted rows)) as [_ Hin].
  destruct (Hin y H) as [->|Hy]; [now left | right; auto].
Qed.

(** The page returned by the vector search holds at most [limit] rows, in
    ascending order of distance; each row is a poem of the table together
    with the smallest of the distances from the query of those of its lines
    that have an embedding. *)
Theorem vector_search_ranked (poems : list poem_row) (lines : list line_row)
  (q : embedding) (limit offset : nat) :
  length (vector_search cosine_distance poems lines q limit offset) <= limit
  /\ StronglySorted (fun a b : poem_row * Q => (snd a <= snd b)%Q)
       (vector_search cosine_distance poems lines q limit offset)
  /\ (forall p d, (p, d) ∈ vector_search cosine_distance poems lines q limit offset ->
        p ∈ poems
        /\ In d (distances cosine_distance lines q p)
        /\ forall x, In x (distances cosine_distance lines q p) -> (d <= x)%Q).
Proof.
  unfold vector_search.
  set (sorted := order_by_distance (grouped cosine_distance poems lines q)).
  assert (Hsorted : StronglySorted (fun a b : poem_row * Q => (snd a <= snd b)%Q) sorted)
    by apply order_by_distance_sorted.
  split; [rewrite length_take; lia|]. split.
  - rewrite <- (take_drop offset sorted) in Hsorted.
    apply StronglySorted_app_1_r in Hsorted.
    rewrite <- (take_drop limit (drop offset sorted)) in Hsorted.
    now apply StronglySorted_app_1_l in Hsorted.
  - intros p d Hrow.
    assert (Hin : (p, d) ∈ grouped cosine_distance poems lines q).
    { apply list_elem_of_In, order_by_distance_in, list_elem_of_In.
      apply (subseteq_drop offset sorted), (subseteq_take limit _), Hrow. }
    unfold grouped in Hin. apply list_elem_of_omap in Hin as (p' & Hp' & Hsome).
    destruct (minimum (distances cosine_distance lines q p')) as [d'|] eqn:Hmin;
      [|discriminate].
    simpl in Hsome. injection Hsome as -> ->.
    destruct (minimum_spec _ _ Hmin). auto.
Qed.

End RankingFacts.

Section ServiceClientFacts.

Import Retrieval.

Lemma embedding_loop_requests server max_retries :
  forall n attempt, requests (snd (embedding_loop server max_retries n attempt)) <= n.
Proof.
  induction n as [|n IH]; intros attempt; [unfold requests; simpl; lia|].
  assert (Hcont : requests (Post :: rest max_retries attempt
                              ++ snd (embedding_loop server max_retries n (S attempt)))
                  <= S n).
  { unfold requests, rest. specialize (IH (S attempt)). unfold requests in IH.
    destruct (attempt <? max_retries - 1); simpl; lia. }
  cbn [embedding_loop].
  destruct (server attempt) as [code b|]; [|exact Hcont].
  destruct (code =? 200)%Z; [|exact Hcont].
  destruct b; [unfold requests; simpl; lia | unfold requests; simpl; lia | exact Hcont].
Qed.

Lemma embedding_loop_some server max_retries e :
  forall n attempt,
    fst (embedding_loop server max_retries n attempt) = Some e ->
    exists k, k < n
      /\ server (attempt + k) = Responded 200 (Vector (Some e))
      /\ (forall a, a < k -> tried_again (server (attempt + a)) = true)
      /\ requests (snd (embedding_loop server max_retries n attempt)) = S k.
Proof.
  induction n as [|n IH]; intros attempt H; [discriminate|].
  assert (Hcont :
            tried_again (server attempt) = true ->
            fst (embedding_loop server max_retries n (S attempt)) = Some e ->
            exists k, k < S n
              /\ server (attempt + k) = Responded 200 (Vector (Some e))
              /\ (forall a, a < k -> tried_again (server (attempt + a)) = true)
              /\ requests (Post :: rest max_retries attempt
                             ++ snd (embedding_loop server max_retries n (S attempt)))
                 = S k).
  { intros Hagain H'. destruct (IH _ H') as (k & Hk & Hserver & Hbefore & Hreq).
    exists (S k). rewrite <- Nat.add_succ_comm. repeat split; [lia | exact Hserver | |].
    - intros [|a] Ha; [now rewrite Nat.add_0_r|].
      rewrite <- Nat.add_succ_comm. apply Hbefore. lia.
    - unfold requests, rest in *. destruct (attempt <? max_retries - 1); simpl; lia. }
  cbn [embedding_loop] in *.
  destruct (server attempt) as [code b|] eqn:Hs; cbn [fst snd] in *;
    [|apply Hcont; [reflexivity | exact H]].
  destruct (code =? 200)%Z eqn:Hcode; cbn [fst snd] in *;
    [|apply Hcont; [simpl; now rewrite Hcode | exact H]].
  apply Z.eqb_eq in Hcode. subst code.
  destruct b; cbn [fst snd] in *;
    [| discriminate | apply Hcont; [reflexivity | exact H]].
  subst e0. exists 0. rewrite Nat.add_0_r.
  split; [lia|]. split; [exact Hs|]. split; [intros a Ha; lia | reflexivity].
Qed.

(** The service's client never makes more than [max_retries] requests. A
    vector it returns was carried by a response with status 200, reached
    after as many retried attempts as requests were made before it; a body
    with status 200 that lacks the expected keys ends the loop at once with
    no vector. *)
Theorem get_embedding_from_spec (api : str -> nat -> reply) (max_retries : nat)
  (text : str) :
  requests (snd (get_embedding_from api max_retries text)) <= max_retries
  /\ (forall e, fst (get_embedding_from api max_retries text) = Some e ->
        exists k, k < max_retries
          /\ api text k = Responded 200 (Vector (Some e))
          /\ (forall a, a < k -> tried_again (api text a) = true)
          /\ requests (snd (get_embedding_from api max_retries text)) = S k)
  /\ (0 < max_retries -> api text 0 = Responded 200 MissingKeys ->
      get_embedding_from api max_retries text = (None, [Post])).
Proof.
  unfold get_embedding_from. split; [apply embedding_loop_requests|]. split.
  - intros e H. apply embedding_loop_some in H. exact H.
  - intros Hpos H0. destruct max_retries; [lia|]. cbn [embedding_loop].
    rewrite H0. reflexivity.
Qed.

End ServiceClientFacts.

Section SearchErrorFacts.

Import Retrieval.

Variable cosine_distance : embedding -> embedding -> Q.
Variable get_embedding : str -> option embedding.

Lemma semantic_search_blank (poems : list poem_row)
  (lines : list line_row) (keywords : str) (limit offset : nat) :
  (forall kw, kw ∈ split_commas [] keywords -> strip kw = []) ->
  semantic_search cosine_distance get_embedding poems lines keywords limit offset
  = Raise (HTTPException 400).
Proof.
  intros Hblank. unfold semantic_search.
  assert (Hnone : List.filter (fun kw => nonempty (strip kw)) (split_commas [] keywords)
                  = []).
  { induction (split_commas [] keywords) as [|kw l IH]; [reflexivity|]. simpl.
    rewrite (Hblank kw) by left. simpl. apply IH. intros x Hx. apply Hblank. now right. }
  rewrite Hnone. reflexivity.
Qed.

Lemma semantic_search_no_vector (poems : list poem_row)
  (lines : list line_row) (keywords : str) (limit offset : nat) :
  (exists kw, kw ∈ split_commas [] keywords /\ strip kw <> []) ->
  (forall text, get_embedding text = None \/ get_embedding text = Some []) ->
  semantic_search cosine_distance get_embedding poems lines keywords limit offset
  = Raise (HTTPException 500).
Proof.
  intros (kw & Hkw & Hne) Hnone. unfold semantic_search.
  assert (Hlist : nonempty (map strip
                              (List.filter (fun kw => nonempty (strip kw))
                                 (split_commas [] keywords))) = true).
  { assert (Hin : kw ∈ List.filter (fun kw => nonempty (strip kw))
                         (split_commas [] keywords)).
    { apply list_elem_of_In, filter_In. split; [now apply list_elem_of_In|].
      destruct (strip kw); [now elim Hne | reflexivity]. }
    destruct (List.filter _ _); [inversion Hin | reflexivity]. }
  rewrite Hlist. cbn [negb].
  assert (Hmulti : forall texts,
             get_multi_embeddings get_embedding texts = Raise (HTTPException 500)).
  { intros texts. unfold get_multi_embeddings.
    assert (Hempty : omap (fun text =>
                             match get_embedding (strip text) with
                             | Some (x :: v) => Some (x :: v)
                             | _ => None
                             end) texts = []).
    { induction texts as [|t l IH]; [reflexivity|]. simpl.
      destruct (Hnone (strip t)) as [-> | ->]; exact IH. }
    now rewrite Hempty. }
  now rewrite Hmulti.
Qed.

Lemma accepted_parameters (limit offset : Z) :
  (1 <= limit <= 100)%Z -> (0 <= offset)%Z ->
  ((1 <=? limit) && (limit <=? 100) && (0 <=? offset))%Z = true.
Proof.
  intros [Hl Hu] Ho.
  apply Z.leb_le in Hl, Hu, Ho. now rewrite Hl, Hu, Ho.
Qed.

(** A request to [/search/semantic] with a configured client and parameters
    within their declared bounds, whose keywords are all blank between their
    commas, is a bad request: status 400, and the embedding service is not
    asked. *)
Theorem blank_keywords_are_a_bad_request (poems : list poem_row)
  (lines : list line_row) (keywords : str) (limit offset : Z) :
  (1 <= limit <= 100)%Z -> (0 <= offset)%Z ->
  (forall kw, kw ∈ split_commas [] keywords -> strip kw = []) ->
  semantic_search_route cosine_distance (Some get_embedding) poems lines keywords
    limit offset
  = Raise (HTTPException 400).
Proof.
  intros Hlimit Hoffset Hblank. unfold semantic_search_route.
  rewrite accepted_parameters by assumption.
  now apply semantic_search_blank.
Qed.

(** A request to [/search/semantic] with a configured client and parameters
    within their declared bounds, for which the embedding service gives no
    usable vector for any keyword, fails with status 500. *)
Theorem no_vector_is_a_server_error (poems : list poem_row)
  (lines : list line_row) (keywords : str) (limit offset : Z) :
  (1 <= limit <= 100)%Z -> (0 <= offset)%Z ->
  (exists kw, kw ∈ split_commas [] keywords /\ strip kw <> []) ->
  (forall text, get_embedding text = None \/ get_embedding text = Some []) ->
  semantic_search_route cosine_distance (Some get_embedding) poems lines keywords
    limit offset
  = Raise (HTTPException 500).
Proof.
  intros Hlimit Hoffset Hkw Hnone. unfold semantic_search_route.
  rewrite accepted_parameters by assumption.
  now apply semantic_search_no_vector.
Qed.

(** In a store where no line has an embedding, a search that does not fail
    returns an empty page. *)
Theorem no_embedded_line_is_an_empty_page (poems : list poem_row)
  (lines : list line_row) (keywords : str) (limit offset : nat)
  (results : list PoemResponse) :
  (forall l, l ∈ lines -> line_embedding l = None) ->
  semantic_search cosine_distance get_embedding poems lines keywords limit offset
  = Ok results ->
  results = [].
Proof.
  intros Hlines. unfold semantic_search.
  assert (Hgroup : forall q, grouped cosine_distance poems lines q = []).
  { intros q. unfold grouped.
    assert (Hd : forall p, distances cosine_distance lines q p = []).
    { intros p. unfold distances. induction lines as [|l ls IH]; [reflexivity|].
      simpl. rewrite (Hlines l) by left.
      destruct (poem_id l =? id p)%Z; simpl; apply IH; intros x Hx; apply Hlines;
        now right. }
    induction poems as [|p ps IH]; [reflexivity|]. simpl. rewrite Hd. exact IH. }
  destruct (negb (nonempty _)); [discriminate|].
  destruct (get_multi_embeddings get_embedding _) as [q|e]; [|discriminate].
  intros [= <-]. unfold vector_search. rewrite Hgroup. simpl.
  rewrite drop_nil, take_nil. reflexivity.
Qed.

End SearchErrorFacts.

Lemma blank_keywords_are_a_bad_request_witness :
  Retrieval.semantic_search_route Sample.unit_distance (Some (fun _ => Some [1%Q; 0%Q]))
    [Sample.stored_poem] [Sample.stored_line] (u " , ,") 10 0
  = Raise (HTTPException 400).
Proof.
  apply (blank_keywords_are_a_bad_request Sample.unit_distance (fun _ => Some [1%Q; 0%Q]));
    [lia | lia |].
  intros kw Hkw. vm_compute in Hkw.
  repeat (apply elem_of_cons in Hkw as [->|Hkw]; [vm_compute; reflexivity|]).
  inversion Hkw.
Defined.

Lemma no_vector_is_a_server_error_witness :
  Retrieval.semantic_search_route Sample.unit_distance (Some (fun _ => None))
    [Sample.stored_poem] [Sample.stored_line] (u "明月,故乡") 10 0
  = Raise (HTTPException 500).
Proof.
  apply (no_vector_is_a_server_error Sample.unit_distance (fun _ => None));
    [lia | lia | |].
  - exists (u "明月"). split; [vm_compute; left | vm_compute; discriminate].
  - intros text. now left.
Defined.

Lemma no_embedded_line_is_an_empty_page_witness :
  exists results,
    Retrieval.semantic_search Sample.unit_distance (fun _ => Some [1%Q; 0%Q])
      [Sample.stored_poem]
      [{| Retrieval.poem_id := 1%Z; Retrieval.line_embedding := None |}]
      (u "明月") 10 0
    = Ok results
    /\ results = [].
Proof.
  assert (H : Retrieval.semantic_search Sample.unit_distance (fun _ => Some [1%Q; 0%Q])
                [Sample.stored_poem]
                [{| Retrieval.poem_id := 1%Z; Retrieval.line_embedding := None |}]
                (u "明月") 10 0
              = Ok []) by (vm_compute; reflexivity).
  assert (Hlines : forall l,
             l ∈ [{| Retrieval.poem_id := 1%Z; Retrieval.line_embedding := None |}] ->
             Retrieval.line_embedding l = None).
  { intros l Hl. apply list_elem_of_singleton in Hl as ->. reflexivity. }
  exists []. split; [exact H|].
  exact (no_embedded_line_is_an_empty_page Sample.unit_distance
           (fun _ => Some [1%Q; 0%Q]) _ _ _ _ _ [] Hlines H).
Defined.

(** ** The adapter on documents with paragraphs *)

Section ShapeFacts.

Variable py_repr : json -> str.
Variable lower : str -> str.

Lemma chapter_paragraphs_loop (d : dict) (fallback_author t : json) (ps : list json) :
  getitem d (u "chapter") = Ok t ->
  forall poems,
    for_each ps (chapter_paragraph d fallback_author) poems
    = Ok (poems ++ map (fun paragraph =>
                          mk_poem t (py_or fallback_author (JStr (u "孔子")))
                                  (JStr (u "先秦")) (JList [paragraph])) ps).
Proof.
  intros Ht. induction ps as [|p ps IH]; intros poems; simpl.
  - now rewrite app_nil_r.
  - unfold chapter_paragraph at 1. rewrite Ht. cbn [bind]. rewrite IH.
    now rewrite <- app_assoc.
Qed.

(** A mapping with a list of paragraphs, and no list under [content], is
    read in one of two ways. With a chapter and at least one paragraph it gives
    one record per paragraph, in order, each with the chapter as its title, the
    file's author or "孔子", the dynasty "先秦" and that one paragraph. Without
    a chapter it is itself the only record. *)
Theorem document_with_paragraphs (d : dict) (ps : list json) :
  (forall l, lookup_key d (u "content") <> Some (JList l)) ->
  lookup_key d (u "paragraphs") = Some (JList ps) ->
  (forall t, lookup_key d (u "chapter") = Some t -> ps <> [] ->
     _extract_poems_from_data py_repr lower (JDict d)
     = Ok (map (fun paragraph =>
                  mk_poem t (py_or (get d (u "author") JNull) (JStr (u "孔子")))
                          (JStr (u "先秦")) (JList [paragraph])) ps,
           get d (u "author") JNull))
  /\ (lookup_key d (u "chapter") = None ->
      _extract_poems_from_data py_repr lower (JDict d)
      = Ok ([JDict d], get d (u "author") JNull)).
Proof.
  intros Hcontent Hpar.
  assert (Hc1 : list_at d (u "content") = Ok false).
  { unfold list_at, has_key, getitem.
    destruct (lookup_key d (u "content")) as [v|] eqn:E; [|reflexivity].
    destruct v; try reflexivity. now elim (Hcontent l). }
  assert (Hc2 : list_at d (u "paragraphs") = Ok true).
  { unfold list_at, has_key, getitem. now rewrite Hpar. }
  split.
  - intros t Ht Hne. unfold _extract_poems_from_data, recognised_shapes.
    rewrite Hc1, Hc2. cbn [bind]. unfold has_key at 1. rewrite Ht.
    unfold loop_over, getitem at 1. rewrite Hpar. cbn [bind iter].
    rewrite (chapter_paragraphs_loop d _ t) by (unfold getitem; now rewrite Ht).
    cbn [bind app]. destruct ps; [now elim Hne|]. reflexivity.
  - intros Hnone. unfold _extract_poems_from_data, recognised_shapes.
    rewrite Hc1, Hc2. cbn [bind]. unfold has_key at 1. rewrite Hnone. reflexivity.
Qed.

End ShapeFacts.

Lemma document_with_paragraphs_witness :
  _extract_poems_from_data Sample.any_repr Sample.ascii_lower
    (JDict [(u "chapter", JStr (u "学而篇"));
            (u "paragraphs", JList [JStr (u "学而时习之。"); JStr (u "不亦说乎？")])])
  = Ok ([mk_poem (JStr (u "学而篇")) (JStr (u "孔子")) (JStr (u "先秦"))
           (JList [JStr (u "学而时习之。")]);
         mk_poem (JStr (u "学而篇")) (JStr (u "孔子")) (JStr (u "先秦"))
           (JList [JStr (u "不亦说乎？")])],
        JNull).
Proof.
  assert (Hc : forall l,
             lookup_key [(u "chapter", JStr (u "学而篇"));
                         (u "paragraphs",
                          JList [JStr (u "学而时习之。"); JStr (u "不亦说乎？")])]
               (u "content") <> Some (JList l)) by (intros l; vm_compute; discriminate).
  assert (Hp : lookup_key [(u "chapter", JStr (u "学而篇"));
                           (u "paragraphs",
                            JList [JStr (u "学而时习之。"); JStr (u "不亦说乎？")])]
                 (u "paragraphs")
               = Some (JList [JStr (u "学而时习之。"); JStr (u "不亦说乎？")]))
    by (vm_compute; reflexivity).
  rewrite (proj1 (document_with_paragraphs Sample.any_repr Sample.ascii_lower _ _ Hc Hp)
             (JStr (u "学而篇"))); [vm_compute; reflexivity | vm_compute; reflexivity
                                   | discriminate].
Defined.
